(** * TMSU: tag implications, closure expansion of queries, file paths

    A shallow embedding of
      - [tmsu/storage/file.go]           (package [storage]: query entry points,
                                          files by directory, path
                                          normalisation, closure expander)
      - [tmsu/storage/database] implication statements (package [database]:
                                          Implications, ImplicationsFor,
                                          AddImplication, DeleteImplication,
                                          the deletes by tag and by value)
    together with the properties the specification states about them and
    further properties the code shows. *)

From Stdlib Require Import List String Ascii NArith Bool Arith Lia Permutation.
Import ListNotations.
Local Open Scope string_scope.
Local Open Scope list_scope.

Set Implicit Arguments.

(** ** Go results

    A Go call either returns or panics.  Functions with an [error] result
    return a pair whose second component is [None] for a nil error. *)

Inductive outcome (A : Type) : Type :=
| Returned (a : A)
| Panicked (message : string).

Arguments Returned {A} a.
Arguments Panicked {A} message.

Definition bind {A B : Type} (o : outcome A) (k : A -> outcome B) : outcome B :=
  match o with
  | Returned a => k a
  | Panicked message => Panicked message
  end.

Notation "x <- o ;; k" := (bind o (fun x => k))
  (at level 61, o at next level, right associativity).

(** ** Package [entities] *)

Module Tag.
Record t : Type := mk { Id : N; Name : string }.
End Tag.

Module Value.
Record t : Type := mk { Id : N; Name : string }.
(** The zero value of the struct: what a tag without a value carries. *)
Definition zero : t := mk 0 "".
End Value.

Record Implication : Type := mkImplication {
  ImplyingTag : Tag.t;
  ImplyingValue : Value.t;
  ImpliedTag : Tag.t;
  ImpliedValue : Value.t
}.

Definition Implications : Type := list Implication.

Record TagValuePair : Type := mkTagValuePair { TagId : N; ValueId : N }.

Module File.
Record t : Type := mk {
  Id : N;
  Directory : string;
  Name : string;
  Fingerprint : string;
  ModTime : N;
  Size : N;
  IsDir : bool
}.
End File.

(** A slice of file pointers; [None] is a nil pointer. *)
Definition Files : Type := list (option File.t).

(** [Implications.Any]: some implication of the slice satisfies the predicate. *)
Definition Any (predicate : Implication -> bool) (implications : Implications) : bool :=
  existsb predicate implications.

(** Modelled from the spec: [Implications.ThatImply] is not among the sources.
    Section 4.3 step 3: "find all implications in I whose implied side equals
    this new pair"; the caller passes the pair as a tag name and a value name
    (the empty name for a bare tag), and the slice keeps the order of [I]. *)
Definition ThatImply (implications : Implications) (tagName valueName : string) : Implications :=
  filter (fun implication =>
            String.eqb (Tag.Name (ImpliedTag implication)) tagName
            && String.eqb (Value.Name (ImpliedValue implication)) valueName)
         implications.

(** ** Package [query]: the expression tree

    [Expression] is a Go interface; the type switch of the expander knows six
    dynamic types.  [OtherExpression] stands for a value of any other dynamic
    type, carried with the type name that the verb [%T] prints.  The one-field
    structs [TagExpression{Name}] and [ValueExpression{Name}] inside a
    comparison are carried as their names. *)

Inductive Expression : Type :=
| EmptyExpression
| TagExpression (Name : string)
| ComparisonExpression (Tag : string) (Operator : string) (Value : string)
| NotExpression (Operand : Expression)
| AndExpression (LeftOperand RightOperand : Expression)
| OrExpression (LeftOperand RightOperand : Expression)
| OtherExpression (typeName : string).

(** Modelled from the spec: the translation of an expression into a file query
    is not among the sources.  Section 4.3 speaks of a file matching an
    expression "under plain (non-implied) semantics": the atoms are decided by
    the file's own assignments, the connectives are boolean.  [tagged] and
    [compared] say which atoms the file satisfies. *)
Fixpoint matches (tagged : string -> bool) (compared : string -> string -> string -> bool)
         (expression : Expression) : bool :=
  match expression with
  | EmptyExpression => true
  | TagExpression name => tagged name
  | ComparisonExpression tag operator value => compared tag operator value
  | NotExpression operand => negb (matches tagged compared operand)
  | AndExpression l r => matches tagged compared l && matches tagged compared r
  | OrExpression l r => matches tagged compared l || matches tagged compared r
  | OtherExpression _ => false
  end.

Definition equivalent (a b : Expression) : Prop :=
  forall tagged compared, matches tagged compared a = matches tagged compared b.

(** ** Go errors and strings *)

Inductive Error : Type :=
| StoreError (message : string)
| NoSuchImplicationError (tagValuePair impliedTagValuePair : TagValuePair)
| Errorf (message : string).

(** [strings.HasPrefix] together with the slice behind the prefix. *)
Fixpoint stripPrefix (prefix s : string) : option string :=
  match prefix with
  | EmptyString => Some s
  | String c prefix' =>
      match s with
      | EmptyString => None
      | String d s' => if Ascii.eqb c d then stripPrefix prefix' s' else None
      end
  end.

(** ** Go's [path/filepath] (separator [/]) *)

Definition Separator : ascii := "/"%char.

(** [strings.Split] at the separator: "a//b" gives "a", "", "b". *)
Fixpoint splitPath (s : string) : list string :=
  match s with
  | EmptyString => [EmptyString]
  | String c s' =>
      if Ascii.eqb c Separator then EmptyString :: splitPath s'
      else match splitPath s' with
           | x :: xs => String c x :: xs
           | [] => [String c EmptyString]
           end
  end.

Definition isRooted (path : string) : bool :=
  match path with
  | String c _ => Ascii.eqb c Separator
  | EmptyString => false
  end.

(** The elements [filepath.Clean] keeps, [kept] being the ones kept so far,
    last first: empty and [.] elements go, [..] takes the element before it
    with it, and goes itself at the top of a rooted path. *)
Fixpoint cleanElements (rooted : bool) (elements kept : list string) : list string :=
  match elements with
  | [] => rev kept
  | e :: rest =>
      if String.eqb e "" || String.eqb e "." then cleanElements rooted rest kept
      else if String.eqb e ".." then
             match kept with
             | top :: kept' =>
                 if String.eqb top ".." then cleanElements rooted rest (e :: kept)
                 else cleanElements rooted rest kept'
             | [] => if rooted then cleanElements rooted rest []
                     else cleanElements rooted rest [e]
             end
           else cleanElements rooted rest (e :: kept)
  end.

Definition Clean (path : string) : string :=
  let rooted := isRooted path in
  let body := String.concat "/" (cleanElements rooted (splitPath path) []) in
  let out := if rooted then String Separator body else body in
  if String.eqb out "" then "." else out.

(** [filepath.Join]: empty elements are ignored, the result is cleaned, and
    it is empty when every element is. *)
Definition Join (elem : list string) : string :=
  match filter (fun e => negb (String.eqb e "")) elem with
  | [] => ""
  | nonEmpty => Clean (String.concat "/" nonEmpty)
  end.

(** [filepath.Dir]: the path up to its last separator, cleaned. *)
Definition Dir (path : string) : string :=
  match splitPath path with
  | [] | [_] => Clean ""
  | elements => Clean (String.concat "/" (removelast elements) ++ "/")%string
  end.

(** [filepath.Base]: the last element of the path. *)
Definition Base (path : string) : string :=
  match rev (cleanElements false (splitPath path) []) with
  | e :: _ => e
  | [] => if isRooted path then "/" else "."
  end.

(** ** Package [database]: the implication statements *)

Module database.

(** A row of table [implication]. *)
Record Row : Type := mkRow {
  tag_id : N;
  value_id : N;
  implied_tag_id : N;
  implied_value_id : N
}.

(** A row of table [file_tag]. *)
Record FileTag : Type := mkFileTag { ft_file_id : N; ft_tag_id : N; ft_value_id : N }.

(** The state a transaction sees: the tables, and the failures of the store.
    [ioError sql] is the failure (I/O and the like) the store answers the
    statement [sql] with, [None] when it runs the statement. *)
Record Tx : Type := mkTx {
  implication : list Row;
  tag : list Tag.t;
  value : list Value.t;
  file : list File.t;
  file_tag : list FileTag;
  ioError : string -> option string
}.

Definition withImplication (tx : Tx) (rows : list Row) : Tx :=
  mkTx rows (tag tx) (value tx) (file tx) (file_tag tx) (ioError tx).

Definition withFile (tx : Tx) (rows : list File.t) : Tx :=
  mkTx (implication tx) (tag tx) (value tx) rows (file_tag tx) (ioError tx).

Definition rowEqb (a b : Row) : bool :=
  N.eqb (tag_id a) (tag_id b) && N.eqb (value_id a) (value_id b)
  && N.eqb (implied_tag_id a) (implied_tag_id b)
  && N.eqb (implied_value_id a) (implied_value_id b).

(** The statement of [Implications]. *)
Definition sqlImplications : string := "
SELECT tag.id, tag.name,
       value.id, value.name,
	   implied_tag.id, implied_tag.name,
	   implied_value.id, implied_value.name
FROM implication
INNER JOIN tag tag ON implication.tag_id = tag.id
LEFT OUTER JOIN value value ON implication.value_id = value.id
INNER JOIN tag implied_tag ON implication.implied_tag_id = implied_tag.id
LEFT OUTER JOIN value implied_value ON implication.implied_value_id = implied_value.id
ORDER BY tag.name, value.name, implied_tag.name, implied_value.name".

(** The head of the statement of [ImplicationsFor], up to its WHERE keyword. *)
Definition sqlImplicationsForSelect : string := "
SELECT tag.id, tag.name,
       value.id, value.name,
       implied_tag.id, implied_tag.name,
       implied_value.id, implied_value.name
FROM implication
INNER JOIN tag tag ON implication.tag_id = tag.id
LEFT OUTER JOIN value value ON implication.value_id = value.id
INNER JOIN tag implied_tag ON implication.implied_tag_id = implied_tag.id
LEFT OUTER JOIN value implied_value ON implication.implied_value_id = implied_value.id
WHERE ".

(** The tail of the statement of [ImplicationsFor]. *)
Definition sqlOrderBy : string := "
ORDER BY tag.name, value.name, implied_tag.name, implied_value.name".

(** The statement of [AddImplication]. *)
Definition sqlAddImplication : string := "
INSERT OR IGNORE INTO implication (tag_id, value_id, implied_tag_id, implied_value_id)
VALUES (?1, ?2, ?3, ?4)".

(** The statement of [DeleteImplication]. *)
Definition sqlDeleteImplication : string := "
DELETE FROM implication
WHERE tag_id = ?1 AND
      value_id = ?2 AND
      implied_tag_id = ?3 AND
      implied_value_id = ?4".

(** The condition [ImplicationsFor] writes once per pair, and what it writes
    between two of them. *)
Definition sqlPairClause : string := "(implication.tag_id = ? AND implication.value_id = ?)".
Definition sqlOr : string := "   OR ".

(** *** The store's side of a statement

    The statements this package issues, as the store understands them. *)
Inductive Statement : Type :=
| SelectImplications
| SelectImplicationsFor (pairs : nat)
| InsertOrIgnoreImplication
| DeleteImplicationWhere.

(** A WHERE condition of [ImplicationsFor]: one pair clause, then any number
    of further ones behind an OR.  The result is the number of clauses and the
    text behind the condition; there is no condition of zero clauses. *)
Fixpoint parseCondition (fuel : nat) (s : string) : option (nat * string) :=
  match fuel with
  | O => None
  | S fuel' =>
      match stripPrefix sqlPairClause s with
      | None => None
      | Some rest =>
          match stripPrefix sqlOr rest with
          | None => Some (1, rest)
          | Some rest' =>
              match parseCondition fuel' rest' with
              | Some (n, tail) => Some (S n, tail)
              | None => None
              end
          end
      end
  end.

Definition prepare (sql : string) : option Statement :=
  if String.eqb sql sqlImplications then Some SelectImplications
  else if String.eqb sql sqlAddImplication then Some InsertOrIgnoreImplication
  else if String.eqb sql sqlDeleteImplication then Some DeleteImplicationWhere
  else
    match stripPrefix sqlImplicationsForSelect sql with
    | None => None
    | Some condition =>
        match parseCondition (String.length condition) condition with
        | Some (n, tail) =>
            if String.eqb tail sqlOrderBy then Some (SelectImplicationsFor n) else None
        | None => None
        end
    end.

(** A row of the four-way join: the value columns are NULL ([None]) when the
    LEFT OUTER JOIN finds no value. *)
Record Joined : Type := mkJoined {
  j_tag : Tag.t;
  j_value : option Value.t;
  j_implied_tag : Tag.t;
  j_implied_value : option Value.t
}.

Definition findTag (tx : Tx) (id : N) : option Tag.t :=
  find (fun t => N.eqb (Tag.Id t) id) (tag tx).

Definition findValue (tx : Tx) (id : N) : option Value.t :=
  find (fun v => N.eqb (Value.Id v) id) (value tx).

(** The INNER JOINs drop a row whose tag is missing. *)
Definition joinRow (tx : Tx) (r : Row) : list Joined :=
  match findTag tx (tag_id r), findTag tx (implied_tag_id r) with
  | Some t, Some it =>
      [mkJoined t (findValue tx (value_id r)) it (findValue tx (implied_value_id r))]
  | _, _ => []
  end.

Definition compareName (a b : option Value.t) : comparison :=
  match a, b with
  | None, None => Eq
  | None, Some _ => Lt
  | Some _, None => Gt
  | Some x, Some y => String.compare (Value.Name x) (Value.Name y)
  end.

Definition thenBy (c d : comparison) : comparison :=
  match c with Eq => d | _ => c end.

(** ORDER BY tag.name, value.name, implied_tag.name, implied_value.name *)
Definition orderBy (a b : Joined) : bool :=
  match thenBy (String.compare (Tag.Name (j_tag a)) (Tag.Name (j_tag b)))
        (thenBy (compareName (j_value a) (j_value b))
        (thenBy (String.compare (Tag.Name (j_implied_tag a)) (Tag.Name (j_implied_tag b)))
                (compareName (j_implied_value a) (j_implied_value b)))) with
  | Gt => false
  | _ => true
  end.

Fixpoint insertOrdered (r : Joined) (rows : list Joined) : list Joined :=
  match rows with
  | [] => [r]
  | x :: rows' => if orderBy r x then r :: rows else x :: insertOrdered r rows'
  end.

Definition select (tx : Tx) (where_ : Row -> bool) : list Joined :=
  fold_right insertOrdered [] (flat_map (joinRow tx) (filter where_ (implication tx))).

Fixpoint pairsOf (params : list N) : list (N * N) :=
  match params with
  | t :: v :: params' => (t, v) :: pairsOf params'
  | _ => []
  end.

Definition syntaxError : Error := StoreError "syntax error".
Definition misuseError : Error := StoreError "statement and call do not fit".

(** [tx.Query]: the rows and the error. *)
Definition Query (tx : Tx) (sql : string) (params : list N) : list Joined * option Error :=
  match ioError tx sql with
  | Some message => ([], Some (StoreError message))
  | None =>
      match prepare sql with
      | None => ([], Some syntaxError)
      | Some SelectImplications => (select tx (fun _ => true), None)
      | Some (SelectImplicationsFor n) =>
          if Nat.eqb (List.length params) (2 * n)
          then (select tx (fun r =>
                  existsb (fun p => N.eqb (tag_id r) (fst p) && N.eqb (value_id r) (snd p))
                          (pairsOf params)), None)
          else ([], Some misuseError)
      | Some _ => ([], Some misuseError)
      end
  end.

(** Modelled from the spec: the declaration of table [implication] is not
    among the sources.  Section 3: "An implication is uniquely identified by
    its four id fields; inserting a duplicate is a no-op, never an error":
    the four columns are the key of the table, so INSERT OR IGNORE leaves the
    table alone when the row is there. *)
Definition insertOrIgnore (row : Row) (table : list Row) : list Row :=
  if existsb (rowEqb row) table then table else table ++ [row].

(** [tx.Exec]: the state after the statement, the number of rows affected and
    the error. *)
Definition Exec (tx : Tx) (sql : string) (params : list N) : Tx * (N * option Error) :=
  match ioError tx sql with
  | Some message => (tx, (0%N, Some (StoreError message)))
  | None =>
      match prepare sql, params with
      | None, _ => (tx, (0%N, Some syntaxError))
      | Some InsertOrIgnoreImplication, [a; b; c; d] =>
          let table := insertOrIgnore (mkRow a b c d) (implication tx) in
          (withImplication tx table,
           (N.of_nat (List.length table - List.length (implication tx)), None))
      | Some DeleteImplicationWhere, [a; b; c; d] =>
          let table := filter (fun r => negb (rowEqb (mkRow a b c d) r)) (implication tx) in
          (withImplication tx table,
           (N.of_nat (List.length (implication tx) - List.length table), None))
      | Some _, _ => (tx, (0%N, Some misuseError))
      end
  end.

(** *** The functions of the package *)

Definition readImplication (row : Joined) : Implication :=
  let implyingValue :=
    match j_value row with Some v => v | None => Value.zero end in
  let impliedValue :=
    match j_implied_value row with Some v => v | None => Value.zero end in
  mkImplication (j_tag row) implyingValue (j_implied_tag row) impliedValue.

Fixpoint readImplications (rows : list Joined) (implications : Implications) : Implications :=
  match rows with
  | [] => implications
  | row :: rows' => readImplications rows' (implications ++ [readImplication row])
  end.

(** Retrieves the complete set of tag implications. *)
Definition Implications (tx : Tx) : list Implication * option Error :=
  match Query tx sqlImplications [] with
  | (_, Some err) => ([], Some err)
  | (rows, None) => (readImplications rows [], None)
  end.

(** The loop of [ImplicationsFor] over the pairs: the text and the parameters
    after the pairs from [index] on. *)
Fixpoint whereLoop (index : nat) (tagValuePairs : list TagValuePair)
         (sql : string) (params : list N) : string * list N :=
  match tagValuePairs with
  | [] => (sql, params)
  | tagValuePair :: rest =>
      let sql1 := if Nat.ltb 0 index then (sql ++ sqlOr)%string else sql in
      let sql2 := (sql1 ++ sqlPairClause)%string in
      whereLoop (S index) rest sql2 (params ++ [TagId tagValuePair; ValueId tagValuePair])
  end.

(** The statement and the parameters [ImplicationsFor] hands to [tx.Query]. *)
Definition implicationsForQuery (tagValuePairs : list TagValuePair) : string * list N :=
  let (sql, params) := whereLoop 0 tagValuePairs sqlImplicationsForSelect [] in
  ((sql ++ sqlOrderBy)%string, params).

(** Retrieves the set of implications by the specified tag and value pairs. *)
Definition ImplicationsFor (tx : Tx) (tagValuePairs : list TagValuePair)
  : list Implication * option Error :=
  let (sql, params) := implicationsForQuery tagValuePairs in
  match Query tx sql params with
  | (_, Some err) => ([], Some err)
  | (rows, None) => (readImplications rows [], None)
  end.

Definition pairParams (tagValuePair impliedTagValuePair : TagValuePair) : list N :=
  [TagId tagValuePair; ValueId tagValuePair;
   TagId impliedTagValuePair; ValueId impliedTagValuePair].

(** Adds the specified implication. *)
Definition AddImplication (tx : Tx) (tagValuePair impliedTagValuePair : TagValuePair)
  : Tx * option Error :=
  let (tx', result) := Exec tx sqlAddImplication (pairParams tagValuePair impliedTagValuePair) in
  match snd result with
  | Some err => (tx', Some err)
  | None => (tx', None)
  end.

(** Deletes the specified implication.  [Exec] hands over the number of rows
    affected with its result; reading it off the result does not fail on this
    store. *)
Definition DeleteImplication (tx : Tx) (tagValuePair impliedTagValuePair : TagValuePair)
  : Tx * outcome (option Error) :=
  let (tx', result) := Exec tx sqlDeleteImplication (pairParams tagValuePair impliedTagValuePair) in
  match snd result with
  | Some err => (tx', Returned (Some err))
  | None =>
      let rowsAffected := fst result in
      if N.eqb rowsAffected 0
      then (tx', Returned (Some (NoSuchImplicationError tagValuePair impliedTagValuePair)))
      else if N.ltb 1 rowsAffected
           then (tx', Panicked "expected exactly one row to be affected")
           else (tx', Returned None)
  end.

(** Modelled from the spec: [database.InsertFile] is not among the sources.
    Section 3: a file is "{id, directory, name, fingerprint, modTime, size,
    isDir}"; section 8: the path handed over for /root/sub/pic.jpg under the
    root /root "persists directory = sub".  The row holds the directory and
    the name of the path it is given, under an id no row has yet; failures of
    the store are left out here. *)
Definition InsertFile (tx : Tx) (path fingerprint : string) (modTime size : N) (isDir : bool)
  : Tx * (option File.t * option Error) :=
  let id := N.succ (fold_right N.max 0%N (map File.Id (file tx))) in
  let row := File.mk id (Dir path) (Base path) fingerprint modTime size isDir in
  (withFile tx (file tx ++ [row]), (Some row, None)).

End database.

(** ** Package [storage] *)

Module storage.

(** *** The closure expander *)

Definition implyingPair (implication : Implication) : N * N :=
  (Tag.Id (ImplyingTag implication), Value.Id (ImplyingValue implication)).

(** The predicate closure of the inner loop of
    [applyImplicationsForTagAndValue]. *)
Definition sameImplying (furtherImplication implication : Implication) : bool :=
  N.eqb (Tag.Id (ImplyingTag implication)) (Tag.Id (ImplyingTag furtherImplication))
  && N.eqb (Value.Id (ImplyingValue implication)) (Value.Id (ImplyingValue furtherImplication)).

(** The term one worklist entry contributes. *)
Definition implyingTerm (relevantImplication : Implication) : Expression :=
  if negb (N.eqb (Value.Id (ImplyingValue relevantImplication)) 0)
  then ComparisonExpression (Tag.Name (ImplyingTag relevantImplication)) "="
                            (Value.Name (ImplyingValue relevantImplication))
  else TagExpression (Tag.Name (ImplyingTag relevantImplication)).

(** The inner [range] loop: each further implication is appended unless an
    entry of the (growing) worklist has the same implying ids. *)
Definition appendFurther (relevantImplications furtherImplications : Implications) : Implications :=
  fold_left
    (fun relevant furtherImplication =>
       if negb (Any (sameImplying furtherImplication) relevant)
       then relevant ++ [furtherImplication]
       else relevant)
    furtherImplications relevantImplications.

(** The outer [for index := 0; index < len(relevantImplications); index++]
    loop.  The slice grows while it is traversed, so the loop is run on fuel;
    [None] means the fuel ran out before the loop exit.  The result is the
    state at the exit: the accumulated expression and the worklist. *)
Fixpoint expandLoop (fuel : nat) (implications : Implications) (index : nat)
         (relevantImplications : Implications) (expression : Expression)
  : option (Expression * Implications) :=
  match fuel with
  | O => None
  | S fuel' =>
      match nth_error relevantImplications index with
      | None => Some (expression, relevantImplications)
      | Some relevantImplication =>
          let expression' := OrExpression expression (implyingTerm relevantImplication) in
          let furtherImplications :=
            ThatImply implications
                      (Tag.Name (ImplyingTag relevantImplication))
                      (Value.Name (ImplyingValue relevantImplication)) in
          expandLoop fuel' implications (S index)
                     (appendFurther relevantImplications furtherImplications)
                     expression'
      end
  end.

(** Fuel that lets the loop reach its exit (theorem [expandLoop_fuel]). *)
Definition enoughFuel (implications relevantImplications : Implications) : nat :=
  S (List.length relevantImplications + List.length implications).

(** The exit state of the loop of [applyImplicationsForTagAndValue]. *)
Definition closure (expression : Expression) (tagName valueName : string)
           (implications : Implications) : option (Expression * Implications) :=
  let relevantImplications := ThatImply implications tagName valueName in
  expandLoop (enoughFuel implications relevantImplications) implications 0
             relevantImplications expression.

Definition applyImplicationsForTagAndValue (expression : Expression) (tagName valueName : string)
           (implications : Implications) : Expression :=
  match closure expression tagName valueName implications with
  | Some (expression', _) => expression'
  | None => expression
  end.

(** The worklist at the loop exit: one entry per OR-term, in order. *)
Definition worklist (tagName valueName : string) (implications : Implications) : Implications :=
  match closure EmptyExpression tagName valueName implications with
  | Some (_, relevantImplications) => relevantImplications
  | None => []
  end.

Definition applyImplicationsForTag (tagName : string) (implications : Implications) : Expression :=
  applyImplicationsForTagAndValue (TagExpression tagName) tagName "" implications.

Definition applyImplicationsForComparison (tag operator value : string)
           (implications : Implications) : Expression :=
  if negb (String.eqb operator "=")
  then ComparisonExpression tag operator value
  else applyImplicationsForTagAndValue (ComparisonExpression tag operator value)
                                       tag value implications.

Fixpoint addImpliedTagsRecursive (expression : Expression) (implications : Implications)
  : outcome Expression :=
  match expression with
  | OrExpression leftOperand rightOperand =>
      l <- addImpliedTagsRecursive leftOperand implications ;;
      r <- addImpliedTagsRecursive rightOperand implications ;;
      Returned (OrExpression l r)
  | AndExpression leftOperand rightOperand =>
      l <- addImpliedTagsRecursive leftOperand implications ;;
      r <- addImpliedTagsRecursive rightOperand implications ;;
      Returned (AndExpression l r)
  | NotExpression operand =>
      o <- addImpliedTagsRecursive operand implications ;;
      Returned (NotExpression o)
  | TagExpression name => Returned (applyImplicationsForTag name implications)
  | ComparisonExpression tag operator value =>
      Returned (applyImplicationsForComparison tag operator value implications)
  | EmptyExpression => Returned expression
  | OtherExpression typeName =>
      Panicked ("unsupported expression type '" ++ typeName ++ "'.")%string
  end.

(** *** Paths *)

Record Storage : Type := mkStorage { RootPath : string }.

(** Modelled from the spec: [path.RelTo] is not among the sources.  Section
    4.4: "convert an absolute input path to root-relative"; section 8: a path
    that "does not fall under the configured root" is kept "as given".  A path
    under the root loses the root and the separator behind it. *)
Definition RelTo (path to : string) : string :=
  match stripPrefix (to ++ "/")%string path with
  | Some rest => rest
  | None => path
  end.

Definition relPath (storage : Storage) (path : string) : string :=
  if String.eqb path "" then "" else RelTo path (RootPath storage).

Definition withDirectory (file : File.t) (directory : string) : File.t :=
  File.mk (File.Id file) directory (File.Name file) (File.Fingerprint file)
          (File.ModTime file) (File.Size file) (File.IsDir file).

(** [absPath] rewrites the directory of the file it points to; the result is
    the file behind the pointer after the call. *)
Definition absPath (storage : Storage) (file : option File.t) : option File.t :=
  match file with
  | None => None
  | Some f =>
      match File.Directory f with
      | EmptyString => Some f
      | String c _ =>
          if Ascii.eqb c Separator then Some f
          else Some (withDirectory f (Join [RootPath storage; File.Directory f]))
      end
  end.

Definition absPaths (storage : Storage) (files : Files) : Files :=
  map (absPath storage) files.

(** Adds a file to the database. *)
Definition AddFile (storage : Storage) (tx : database.Tx) (path fingerprint : string)
           (modTime size : N) (isDir : bool)
  : database.Tx * (option File.t * option Error) :=
  let relPath := relPath storage path in
  let (tx', result) := database.InsertFile tx relPath fingerprint modTime size isDir in
  (tx', (absPath storage (fst result), snd result)).

(** *** Queries *)

(** What [%v] prints for an error. *)
Definition errorText (err : Error) : string :=
  match err with
  | StoreError message => message
  | NoSuchImplicationError _ _ => "no such implication"
  | Errorf message => message
  end.

(** Modelled from the spec: [Storage.Implications] is not among the sources.
    Section 2: "the File Store first asks the Implication Store for the full
    implication set": the statement of [database.Implications]. *)
Definition Implications (tx : database.Tx) : list Implication * option Error :=
  database.Implications tx.

(** The error [fmt.Errorf] builds in [addImpliedTags]; the call is a statement
    of its own there, its result is dropped. *)
Definition couldNotRetrieve (err : Error) : Error :=
  Errorf ("could not retrieve tag implications: " ++ errorText err)%string.

Definition addImpliedTags (tx : database.Tx) (expression : Expression)
  : outcome (Expression * option Error) :=
  let (implications, err) := Implications tx in
  let _ := option_map couldNotRetrieve err in
  expression' <- addImpliedTagsRecursive expression implications ;;
  Returned (expression', None).

Section Queries.

(** [database.QueryFileCount] and [database.QueryFiles] are not among the
    sources: the translation of an expression into a statement over the
    file tables. *)
Variable database_QueryFileCount :
  database.Tx -> Expression -> string -> N * option Error.
Variable database_QueryFiles :
  database.Tx -> Expression -> string -> string -> Files * option Error.

(** Retrieves the count of files that match the specified query and
    matching the specified path. *)
Definition QueryFileCount (storage : Storage) (tx : database.Tx) (expression : Expression)
           (path : string) (explicitOnly : bool) : outcome (N * option Error) :=
  if negb explicitOnly then
    r <- addImpliedTags tx expression ;;
    match snd r with
    | Some err => Returned (0%N, Some err)
    | None => Returned (database_QueryFileCount tx (fst r) (relPath storage path))
    end
  else Returned (database_QueryFileCount tx expression (relPath storage path)).

(** Retrieves the set of files that match the specified query. *)
Definition QueryFiles (storage : Storage) (tx : database.Tx) (expression : Expression)
           (path : string) (explicitOnly : bool) (sort : string)
  : outcome (Files * option Error) :=
  let run expression :=
    let relPath := relPath storage path in
    let (files, err) := database_QueryFiles tx expression relPath sort in
    (absPaths storage files, err) in
  if negb explicitOnly then
    r <- addImpliedTags tx expression ;;
    match snd r with
    | Some err => Returned ([], Some err)
    | None => Returned (run (fst r))
    end
  else Returned (run expression).

End Queries.

End storage.

(** * Vocabulary of the properties *)

(** The four ids that identify an implication. *)
Definition fourIds (implication : Implication) : N * N * N * N :=
  (Tag.Id (ImplyingTag implication), Value.Id (ImplyingValue implication),
   Tag.Id (ImpliedTag implication), Value.Id (ImpliedValue implication)).

(** The invariants of the data model on an implication set: an implication
    is identified by its four ids, and a tag or value name stands for one id. *)
Record wellFormed (implications : Implications) : Prop := {
  uniqueFourIds : NoDup (map fourIds implications);
  uniqueTagNames :
    forall i j, In i implications -> In j implications ->
                Tag.Name (ImpliedTag i) = Tag.Name (ImpliedTag j) ->
                Tag.Id (ImpliedTag i) = Tag.Id (ImpliedTag j);
  uniqueValueNames :
    forall i j, In i implications -> In j implications ->
                Value.Name (ImpliedValue i) = Value.Name (ImpliedValue j) ->
                Value.Id (ImpliedValue i) = Value.Id (ImpliedValue j)
}.

(** The accumulated expression after the given worklist entries: each entry
    adds its term as [Or(accumulated, term)]. *)
Definition orAll (expression : Expression) (entries : Implications) : Expression :=
  fold_left (fun accumulated entry => OrExpression accumulated (storage.implyingTerm entry))
            entries expression.

(** The loop invariant behind termination: behind the seed, the worklist
    holds implications of the set with pairwise different implying ids. *)
Definition grownFrom (implications seed relevant : Implications) : Prop :=
  exists extra,
    relevant = seed ++ extra
    /\ NoDup (map storage.implyingPair extra)
    /\ incl extra implications.

(** The traversal in the words of the specification: the same node around
    the rewritten operands, the leaves rewritten by [leaf]. *)
Fixpoint rewriteLeaves (leaf : Expression -> Expression) (expression : Expression) : Expression :=
  match expression with
  | AndExpression l r => AndExpression (rewriteLeaves leaf l) (rewriteLeaves leaf r)
  | OrExpression l r => OrExpression (rewriteLeaves leaf l) (rewriteLeaves leaf r)
  | NotExpression o => NotExpression (rewriteLeaves leaf o)
  | EmptyExpression => EmptyExpression
  | _ => leaf expression
  end.

(** Leaf expansion: what the expander does to a Tag or Comparison leaf. *)
Definition expandLeaf (implications : Implications) (leaf : Expression) : Expression :=
  match leaf with
  | TagExpression name =>
      storage.applyImplicationsForTagAndValue leaf name "" implications
  | ComparisonExpression tag operator value =>
      if String.eqb operator "="
      then storage.applyImplicationsForTagAndValue leaf tag value implications
      else leaf
  | _ => leaf
  end.

(** The first node outside the closed set of variants, operands left to
    right: the name of its type. *)
Fixpoint firstUnsupported (expression : Expression) : option string :=
  match expression with
  | AndExpression l r | OrExpression l r =>
      match firstUnsupported l with
      | Some typeName => Some typeName
      | None => firstUnsupported r
      end
  | NotExpression o => firstUnsupported o
  | OtherExpression typeName => Some typeName
  | _ => None
  end.

(** The row an implication between two pairs is stored as. *)
Definition rowOf (tagValuePair impliedTagValuePair : TagValuePair) : database.Row :=
  database.mkRow (TagId tagValuePair) (ValueId tagValuePair)
                 (TagId impliedTagValuePair) (ValueId impliedTagValuePair).

(** How many rows of the implication table match the four ids. *)
Definition stored (tx : database.Tx) (tagValuePair impliedTagValuePair : TagValuePair) : nat :=
  List.length (filter (database.rowEqb (rowOf tagValuePair impliedTagValuePair))
                      (database.implication tx)).

(** The implication table without the rows that match the four ids. *)
Definition without (tx : database.Tx) (tagValuePair impliedTagValuePair : TagValuePair)
  : list database.Row :=
  filter (fun r => negb (database.rowEqb (rowOf tagValuePair impliedTagValuePair) r))
         (database.implication tx).

(** A disjunction with one pair clause per pair, and the parameters of the
    pairs in input order. *)
Definition disjunction (tagValuePairs : list TagValuePair) : string :=
  String.concat database.sqlOr (map (fun _ => database.sqlPairClause) tagValuePairs).

Definition parametersOf (tagValuePairs : list TagValuePair) : list N :=
  flat_map (fun p => [TagId p; ValueId p]) tagValuePairs.

(** ** Example data *)

Module Example.

Definition valueless (implying implied : Tag.t) : Implication :=
  mkImplication implying Value.zero implied Value.zero.

Definition dog := Tag.mk 1 "dog".
Definition cat := Tag.mk 2 "cat".
Definition puppy := Tag.mk 3 "puppy".
Definition animal := Tag.mk 4 "animal".

(** dog -> animal, cat -> animal, puppy -> dog *)
Definition animals : Implications :=
  [valueless dog animal; valueless cat animal; valueless puppy dog].

Definition tagA := Tag.mk 1 "A".
Definition tagB := Tag.mk 2 "B".

(** A -> B, B -> A *)
Definition cycle : Implications := [valueless tagA tagB; valueless tagB tagA].

Definition size := Tag.mk 7 "size".
Definition big := Tag.mk 8 "big".

(** big -> size = 100 and size = 100 -> big *)
Definition sizes : Implications :=
  [mkImplication big Value.zero size (Value.mk 5 "100");
   mkImplication size (Value.mk 5 "100") big Value.zero].

(** The table behind [animals], with its tags. *)
Definition animalsTx : database.Tx :=
  database.mkTx
    [database.mkRow 1 0 4 0; database.mkRow 2 0 4 0; database.mkRow 3 0 1 0]
    [dog; cat; puppy; animal] []
    [File.mk 1 "pics" "dog" "f1" 0 10 false; File.mk 2 "pics" "animal" "f2" 0 20 false]
    [] (fun _ => None).

(** The same state on a store that fails to read the implications. *)
Definition failingTx : database.Tx :=
  database.mkTx
    (database.implication animalsTx) (database.tag animalsTx) (database.value animalsTx)
    (database.file animalsTx) (database.file_tag animalsTx)
    (fun sql => if String.eqb sql database.sqlImplications
                then Some "disk I/O error" else None).

Definition dogPair := mkTagValuePair 1 0.
Definition animalPair := mkTagValuePair 4 0.
Definition catPair := mkTagValuePair 2 0.

(** A stand-in for the file queries of the database package, which are
    not among the sources: it reads the file table only, and takes a file
    to carry the tag its name spells. *)
Definition fileMatches (expression : Expression) (f : File.t) : bool :=
  matches (fun name => String.eqb name (File.Name f)) (fun _ _ _ => false) expression.

Definition queryFiles (tx : database.Tx) (expression : Expression) (path sort : string)
  : Files * option Error :=
  (map Some (filter (fileMatches expression) (database.file tx)), None).

Definition queryFileCount (tx : database.Tx) (expression : Expression) (path : string)
  : N * option Error :=
  (N.of_nat (List.length (filter (fileMatches expression) (database.file tx))), None).

Definition root := storage.mkStorage "/root".

End Example.

(** * More of the two packages *)

(** ** Package [database]: the cascading deletes *)

Module databaseDeletes.

(** The statement of [DeleteImplicationsByTagId]. *)
Definition sqlDeleteImplicationsByTagId : string := "
DELETE FROM implication
WHERE tag_id = ?1 OR implied_tag_id = ?1".

(** The statement of [DeleteImplicationsByValueId]. *)
Definition sqlDeleteImplicationsByValueId : string := "
DELETE FROM implication
WHERE value_id = ?1 OR implied_value_id = ?1".

Definition mentionsTag (tagId : N) (r : database.Row) : bool :=
  N.eqb (database.tag_id r) tagId || N.eqb (database.implied_tag_id r) tagId.

Definition mentionsValue (valueId : N) (r : database.Row) : bool :=
  N.eqb (database.value_id r) valueId || N.eqb (database.implied_value_id r) valueId.

(** [tx.Exec] with the two cascading DELETEs: a failure of the store first,
    then the statement; every other statement is the store's as before. *)
Definition Exec (tx : database.Tx) (sql : string) (params : list N)
  : database.Tx * (N * option Error) :=
  match database.ioError tx sql with
  | Some message => (tx, (0%N, Some (StoreError message)))
  | None =>
      if String.eqb sql sqlDeleteImplicationsByTagId then
        match params with
        | [tagId] =>
            let table := filter (fun r => negb (mentionsTag tagId r)) (database.implication tx) in
            (database.withImplication tx table,
             (N.of_nat (List.length (database.implication tx) - List.length table), None))
        | _ => (tx, (0%N, Some database.misuseError))
        end
      else if String.eqb sql sqlDeleteImplicationsByValueId then
        match params with
        | [valueId] =>
            let table :=
              filter (fun r => negb (mentionsValue valueId r)) (database.implication tx) in
            (database.withImplication tx table,
             (N.of_nat (List.length (database.implication tx) - List.length table), None))
        | _ => (tx, (0%N, Some database.misuseError))
        end
      else database.Exec tx sql params
  end.

(** Deletes implications for the specified tag id. *)
Definition DeleteImplicationsByTagId (tx : database.Tx) (tagId : N)
  : database.Tx * option Error :=
  let (tx', result) := Exec tx sqlDeleteImplicationsByTagId [tagId] in
  match snd result with
  | Some err => (tx', Some err)
  | None => (tx', None)
  end.

(** Deletes implications for the specified value id. *)
Definition DeleteImplicationsByValueId (tx : database.Tx) (valueId : N)
  : database.Tx * option Error :=
  let (tx', result) := Exec tx sqlDeleteImplicationsByValueId [valueId] in
  match snd result with
  | Some err => (tx', Some err)
  | None => (tx', None)
  end.

End databaseDeletes.

(** ** Package [storage]: files by directory *)

Module storageFiles.

Section ByDirectory.

(** [database.FilesByDirectory] is not among the sources: the files the
    store holds under a directory, or the error of the store. *)
Variable database_FilesByDirectory : database.Tx -> string -> Files * option Error.

(** Retrieves all files that are under the specified directory. *)
Definition FilesByDirectory (st : storage.Storage) (tx : database.Tx) (path : string)
  : Files * option Error :=
  let relPath := storage.relPath st path in
  let (files, err) := database_FilesByDirectory tx relPath in
  (storage.absPaths st files, err).

(** The error [FilesByDirectories] returns for a directory. *)
Definition couldNotRetrieveFiles (path : string) (err : Error) : Error :=
  Errorf ("'" ++ path ++ "': could not retrieve files for directory: "
          ++ storage.errorText err)%string.

(** The [range] loop of [FilesByDirectories] over the paths, [files] being
    the files appended so far; an error ends it. *)
Fixpoint filesByDirectoriesLoop (st : storage.Storage) (tx : database.Tx)
         (paths : list string) (files : Files) : Files * option Error :=
  match paths with
  | [] => (files, None)
  | path :: rest =>
      let relPath := storage.relPath st path in
      let (pathFiles, err) := database_FilesByDirectory tx relPath in
      match err with
      | Some e => ([], Some (couldNotRetrieveFiles path e))
      | None => filesByDirectoriesLoop st tx rest (files ++ pathFiles)
      end
  end.

(** Retrieves all file that are under the specified directories. *)
Definition FilesByDirectories (st : storage.Storage) (tx : database.Tx) (paths : list string)
  : Files * option Error :=
  match filesByDirectoriesLoop st tx paths [] with
  | (_, Some err) => ([], Some err)
  | (files, None) => (storage.absPaths st files, None)
  end.

End ByDirectory.

End storageFiles.

(** ** Vocabulary *)

(** The names on the two sides of an implication. *)
Definition impliedNames (i : Implication) : string * string :=
  (Tag.Name (ImpliedTag i), Value.Name (ImpliedValue i)).

Definition implyingNames (i : Implication) : string * string :=
  (Tag.Name (ImplyingTag i), Value.Name (ImplyingValue i)).

(** An implication of the set reaches the pair of a leaf when it implies
    that pair, or implies the implying side of an implication that reaches
    it. *)
Inductive reaches (implications : Implications) (tagName valueName : string)
  : Implication -> Prop :=
| reaches_leaf (i : Implication) :
    In i implications ->
    impliedNames i = (tagName, valueName) ->
    reaches implications tagName valueName i
| reaches_step (i j : Implication) :
    reaches implications tagName valueName j ->
    In i implications ->
    impliedNames i = implyingNames j ->
    reaches implications tagName valueName i.

(** Every entry the loop has passed has had its further implications
    looked up: their implying ids are in the worklist. *)
Definition passed (implications : Implications) (index : nat) (relevant : Implications)
  : Prop :=
  forall k w i,
    k < index -> nth_error relevant k = Some w ->
    In i implications -> impliedNames i = implyingNames w ->
    In (storage.implyingPair i) (map storage.implyingPair relevant).

(** An id stands for one name on the implying sides of the set. *)
Definition namedById (implications : Implications) : Prop :=
  forall a b, In a implications -> In b implications ->
              storage.implyingPair a = storage.implyingPair b ->
              implyingNames a = implyingNames b.

(** The value a row's value id is read as: the value of the table, or the
    zero value when the table has none. *)
Definition valueRead (tx : database.Tx) (id : N) : Value.t :=
  match database.findValue tx id with
  | Some v => v
  | None => Value.zero
  end.

(** ** More example data *)

Module Example2.

(** The files of two directories, and a directory the store fails on. *)
Definition filesByDirectory (tx : database.Tx) (path : string) : Files * option Error :=
  if String.eqb path "gone" then ([], Some (StoreError "disk I/O error"))
  else (map Some (filter (fun f => String.eqb (File.Directory f) path) (database.file tx)),
        None).

Definition filesTx : database.Tx :=
  database.mkTx [] [] []
    [File.mk 1 "pics" "a.jpg" "f1" 0 10 false;
     File.mk 2 "docs" "b.txt" "f2" 0 20 false;
     File.mk 3 "/mnt/pics" "c.jpg" "f3" 0 30 false]
    [] (fun _ => None).

(** puppy -> dog, dog -> animal, and kitten -> cat which does not reach
    animal *)
Definition kitten := Tag.mk 5 "kitten".

Definition pets : Implications :=
  [Example.valueless Example.puppy Example.dog;
   Example.valueless Example.dog Example.animal;
   Example.valueless kitten Example.cat].

End Example2.

(** * Properties *)

(** ** The closure expander *)

Section Expander.

Variable implications : Implications.

Lemma Any_sameImplying (further : Implication) (relevant : Implications) :
  Any (storage.sameImplying further) relevant = true
  <-> In (storage.implyingPair further) (map storage.implyingPair relevant).
Proof.
  unfold Any. rewrite existsb_exists, in_map_iff. unfold storage.sameImplying, storage.implyingPair.
  split.
  - intros (x & Hin & Heq). apply andb_true_iff in Heq as [H1 H2].
    apply N.eqb_eq in H1, H2. exists x. now rewrite H1, H2.
  - intros (x & Heq & Hin). injection Heq as H1 H2. exists x. split; [assumption|].
    now rewrite H1, H2, !N.eqb_refl.
Qed.

(** The inner loop appends: what it adds comes from the further
    implications, and no two entries it adds, nor an entry it adds and an
    older one, share their implying ids. *)
Lemma appendFurther_appends (further relevant : Implications) :
  exists added,
    storage.appendFurther relevant further = relevant ++ added
    /\ incl added further
    /\ NoDup (map storage.implyingPair added)
    /\ (forall a, In a added -> ~ In (storage.implyingPair a) (map storage.implyingPair relevant)).
Proof.
  unfold storage.appendFurther. revert relevant.
  induction further as [|fi rest IH]; intros relevant; simpl.
  - exists []. rewrite app_nil_r. repeat split; try easy. constructor.
  - destruct (Any (storage.sameImplying fi) relevant) eqn:Hany; simpl.
    + destruct (IH relevant) as (added & Heq & Hincl & Hnd & Hfresh).
      exists added. repeat split; auto using incl_tl.
    + destruct (IH (relevant ++ [fi])) as (added & Heq & Hincl & Hnd & Hfresh).
      exists (fi :: added). rewrite Heq, <- app_assoc. simpl.
      repeat split.
      * apply incl_cons; [now left | now apply incl_tl].
      * constructor; [|assumption].
        intros Hin. apply in_map_iff in Hin as (a & Ha & Hina).
        apply (Hfresh a Hina). rewrite Ha, map_app, in_app_iff. right. now left.
      * intros a [<- | Hina].
        -- intros Hin. apply Any_sameImplying in Hin. congruence.
        -- intros Hin. apply (Hfresh a Hina). rewrite map_app, in_app_iff. now left.
Qed.

Lemma ThatImply_incl (tagName valueName : string) :
  incl (ThatImply implications tagName valueName) implications.
Proof. intros x Hx. unfold ThatImply in Hx. now apply filter_In in Hx. Qed.

Lemma grownFrom_length (seed relevant : Implications) :
  grownFrom implications seed relevant ->
  List.length relevant <= List.length seed + List.length implications.
Proof.
  intros (extra & -> & Hnd & Hincl). rewrite length_app.
  apply Nat.add_le_mono_l.
  rewrite <- (length_map storage.implyingPair extra), <- (length_map storage.implyingPair implications).
  apply NoDup_incl_length; [assumption|].
  intros p Hp. apply in_map_iff in Hp as (a & <- & Ha). apply in_map. now apply Hincl.
Qed.

Lemma grownFrom_appendFurther (seed relevant : Implications) (tagName valueName : string) :
  grownFrom implications seed relevant ->
  grownFrom implications seed (storage.appendFurther relevant (ThatImply implications tagName valueName)).
Proof.
  intros (extra & -> & Hnd & Hincl).
  destruct (appendFurther_appends (ThatImply implications tagName valueName) (seed ++ extra))
    as (added & Heq & Hin & Hndadd & Hfresh).
  exists (extra ++ added). rewrite Heq, app_assoc. repeat split.
  - rewrite map_app. apply NoDup_app; try assumption.
    intros p Hp Hq. apply in_map_iff in Hq as (a & <- & Ha).
    apply (Hfresh a Ha). rewrite map_app, in_app_iff. now right.
  - apply incl_app; [assumption|].
    intros a Ha. apply (ThatImply_incl tagName valueName). now apply Hin.
Qed.

(** Termination of the outer loop: the worklist never outgrows the seed
    plus the implication set, so the index reaches its end. *)
Lemma expandLoop_fuel (seed : Implications) :
  forall fuel index relevant expression,
    grownFrom implications seed relevant ->
    index <= List.length relevant ->
    List.length seed + List.length implications < fuel + index ->
    exists result, storage.expandLoop fuel implications index relevant expression = Some result.
Proof.
  induction fuel as [|fuel IH]; intros index relevant expression Hinv Hidx Hfuel.
  - apply grownFrom_length in Hinv. lia.
  - simpl. destruct (nth_error relevant index) as [ri|] eqn:Hnth.
    + apply IH.
      * now apply grownFrom_appendFurther.
      * destruct (appendFurther_appends
                    (ThatImply implications (Tag.Name (ImplyingTag ri))
                               (Value.Name (ImplyingValue ri))) relevant)
          as (added & -> & _).
        rewrite length_app.
        assert (index < List.length relevant)
          by (apply nth_error_Some; congruence).
        lia.
      * lia.
    + eauto.
Qed.

Lemma expandLoop_more_fuel :
  forall fuel index relevant expression result,
    storage.expandLoop fuel implications index relevant expression = Some result ->
    forall fuel', fuel <= fuel' ->
      storage.expandLoop fuel' implications index relevant expression = Some result.
Proof.
  induction fuel as [|fuel IH]; intros index relevant expression result Hrun fuel' Hle.
  - discriminate.
  - destruct fuel' as [|fuel']; [lia|].
    simpl in *. destruct (nth_error relevant index); [|assumption].
    apply IH with (fuel' := fuel') in Hrun; [assumption | lia].
Qed.

(** The worklist at the exit does not depend on the expression. *)
Lemma expandLoop_worklist :
  forall fuel index relevant e1 e2,
    option_map snd (storage.expandLoop fuel implications index relevant e1)
    = option_map snd (storage.expandLoop fuel implications index relevant e2).
Proof.
  induction fuel as [|fuel IH]; intros; simpl; [reflexivity|].
  destruct (nth_error relevant index); [apply IH | reflexivity].
Qed.

Lemma skipn_nth_error {A : Type} (l : list A) :
  forall n x, nth_error l n = Some x -> skipn n l = x :: skipn (S n) l.
Proof.
  induction l as [|y l IH]; intros [|n] x H; simpl in *; try discriminate.
  - now injection H as ->.
  - now apply IH.
Qed.

(** The exit state: the worklist extends the one the loop was entered
    with, and the expression has gained the terms of the entries from the
    index on, in order. *)
Lemma expandLoop_exit :
  forall fuel index relevant expression expression' final,
    storage.expandLoop fuel implications index relevant expression = Some (expression', final) ->
    (exists more, final = relevant ++ more)
    /\ expression' = orAll expression (skipn index final).
Proof.
  induction fuel as [|fuel IH]; intros index relevant expression expression' final Hrun.
  - discriminate.
  - simpl in Hrun. destruct (nth_error relevant index) as [ri|] eqn:Hnth.
    + apply IH in Hrun as [(more & Hfinal) Hexpr].
      destruct (appendFurther_appends
                  (ThatImply implications (Tag.Name (ImplyingTag ri))
                             (Value.Name (ImplyingValue ri))) relevant)
        as (added & Happ & _).
      rewrite Happ, <- app_assoc in Hfinal.
      split; [eauto|].
      assert (Hfinalnth : nth_error final index = Some ri).
      { rewrite Hfinal, nth_error_app1; [assumption|].
        apply nth_error_Some. congruence. }
      rewrite (skipn_nth_error _ _ Hfinalnth). exact Hexpr.
    + injection Hrun as <- <-. split.
      * exists []. now rewrite app_nil_r.
      * apply nth_error_None in Hnth. now rewrite skipn_all2.
Qed.

(** The implying ids stay pairwise different along the loop. *)
Lemma expandLoop_NoDup :
  forall fuel index relevant expression expression' final,
    NoDup (map storage.implyingPair relevant) ->
    storage.expandLoop fuel implications index relevant expression = Some (expression', final) ->
    NoDup (map storage.implyingPair final).
Proof.
  induction fuel as [|fuel IH]; intros index relevant expression expression' final Hnd Hrun.
  - discriminate.
  - simpl in Hrun. destruct (nth_error relevant index) as [ri|].
    + apply IH in Hrun; [assumption|].
      destruct (appendFurther_appends
                  (ThatImply implications (Tag.Name (ImplyingTag ri))
                             (Value.Name (ImplyingValue ri))) relevant)
        as (added & -> & _ & Hndadd & Hfresh).
      rewrite map_app. apply NoDup_app; try assumption.
      intros p Hp Hq. apply in_map_iff in Hq as (a & <- & Ha). now apply (Hfresh a Ha).
    + now injection Hrun as <- <-.
Qed.

(** In a well-formed implication set the seed of a leaf has pairwise
    different implying ids: its entries share the implied names, so two of
    them with the same implying ids would be one row. *)
Lemma ThatImply_NoDup (tagName valueName : string) :
  wellFormed implications ->
  NoDup (map storage.implyingPair (ThatImply implications tagName valueName)).
Proof.
  intros [Hrows Htags Hvalues].
  assert (Hgen : forall l, incl l implications -> NoDup (map fourIds l) ->
            NoDup (map storage.implyingPair (ThatImply l tagName valueName))).
  { induction l as [|i l IH]; intros Hincl Hnd; simpl; [constructor|].
    inversion Hnd as [|? ? Hnotin Hnd']; subst.
    assert (Hl : incl l implications) by (intros x Hx; apply Hincl; now right).
    destruct (String.eqb (Tag.Name (ImpliedTag i)) tagName
              && String.eqb (Value.Name (ImpliedValue i)) valueName) eqn:Hmatch;
      [|now apply IH].
    simpl. constructor; [|now apply IH].
    intros Hin. apply in_map_iff in Hin as (j & Hpair & Hj).
    unfold ThatImply in Hj. apply filter_In in Hj as [Hjl Hjmatch].
    apply andb_true_iff in Hmatch as [Hit Hiv], Hjmatch as [Hjt Hjv].
    apply String.eqb_eq in Hit, Hiv, Hjt, Hjv.
    apply Hnotin. apply in_map_iff. exists j. split; [|assumption].
    unfold storage.implyingPair in Hpair. injection Hpair as Hp1 Hp2.
    unfold fourIds. rewrite Hp1, Hp2.
    rewrite (Htags j i), (Hvalues j i); try congruence;
      try (apply Hincl; now left); now apply Hl. }
  apply Hgen; [apply incl_refl | assumption].
Qed.

(** The loop of [applyImplicationsForTagAndValue] reaches its exit. *)
Lemma closure_returns (expression : Expression) (tagName valueName : string) :
  exists expression' final,
    storage.closure expression tagName valueName implications = Some (expression', final).
Proof.
  unfold storage.closure, storage.enoughFuel.
  set (seed := ThatImply implications tagName valueName).
  assert (Hrun : exists result,
             storage.expandLoop (S (List.length seed + List.length implications))
                                implications 0 seed expression = Some result).
  { apply expandLoop_fuel with (seed := seed).
    - exists []. rewrite app_nil_r. repeat split; [constructor | easy].
    - lia.
    - lia. }
  destruct Hrun as ([e f] & Hrun). eauto.
Qed.

Lemma closure_worklist (expression : Expression) (tagName valueName : string) :
  storage.closure expression tagName valueName implications
  = Some (storage.applyImplicationsForTagAndValue expression tagName valueName implications,
          storage.worklist tagName valueName implications).
Proof.
  destruct (closure_returns expression tagName valueName) as (e & f & Hrun).
  destruct (closure_returns EmptyExpression tagName valueName) as (e0 & f0 & Hrun0).
  unfold storage.applyImplicationsForTagAndValue, storage.worklist.
  rewrite Hrun, Hrun0.
  pose proof (expandLoop_worklist
                (storage.enoughFuel implications (ThatImply implications tagName valueName))
                0 (ThatImply implications tagName valueName) expression EmptyExpression) as Hw.
  unfold storage.closure in Hrun, Hrun0. rewrite Hrun, Hrun0 in Hw.
  cbn [option_map snd] in Hw. congruence.
Qed.

End Expander.

Lemma cycle_wellFormed : wellFormed Example.cycle.
Proof.
  constructor.
  - repeat constructor; simpl; intuition discriminate.
  - intros i j [<-|[<-|[]]] [<-|[<-|[]]]; simpl; intros H; (reflexivity || discriminate H).
  - intros i j [<-|[<-|[]]] [<-|[<-|[]]]; simpl; intros H; (reflexivity || discriminate H).
Qed.

(** The six orders in which a three-element list can be given. *)
Lemma Permutation_three {A : Type} (a b c : A) (l : list A) :
  Permutation [a; b; c] l ->
  l = [a; b; c] \/ l = [a; c; b] \/ l = [b; a; c]
  \/ l = [b; c; a] \/ l = [c; a; b] \/ l = [c; b; a].
Proof.
  intros H.
  pose proof (Permutation_length H) as Hlen.
  destruct l as [|x [|y [|z [|w l]]]]; try discriminate Hlen.
  assert (Hx : In x [a; b; c]) by (apply Permutation_in with (l := [x; y; z]);
                                   [now apply Permutation_sym | now left]).
  destruct Hx as [<-|[<-|[<-|[]]]].
  - apply Permutation_cons_inv in H.
    destruct (Permutation_length_2_inv H) as [Hm|Hm]; injection Hm as <- <-; tauto.
  - assert (H' : Permutation [a; c] [y; z]).
    { apply Permutation_cons_inv with (a := b).
      eapply Permutation_trans; [|exact H]. apply perm_swap. }
    destruct (Permutation_length_2_inv H') as [Hm|Hm]; injection Hm as <- <-; tauto.
  - assert (H' : Permutation [a; b] [y; z]).
    { apply Permutation_cons_inv with (a := c).
      eapply Permutation_trans; [|exact H].
      eapply Permutation_trans; [apply perm_swap|]. apply perm_skip, perm_swap. }
    destruct (Permutation_length_2_inv H') as [Hm|Hm]; injection Hm as <- <-; tauto.
Qed.

(** C1: Closure correctness on dog -> animal, cat -> animal, puppy -> dog:
    expanding the leaf Tag(animal) over the set as the claim lists it gives
    Or(Or(Or(animal, dog), cat), puppy), every new term joined as
    Or(accumulated, term); in whatever order the three implications are held,
    the terms of dog and cat come before puppy (breadth first), and the
    result is logically equivalent to animal OR dog OR cat OR puppy. *)
Theorem closure_animals (implications : Implications) :
  Permutation Example.animals implications ->
  storage.applyImplicationsForTag "animal" Example.animals
  = OrExpression
      (OrExpression (OrExpression (TagExpression "animal") (TagExpression "dog"))
                    (TagExpression "cat"))
      (TagExpression "puppy")
  /\ (exists first second,
         (first = "dog" /\ second = "cat" \/ first = "cat" /\ second = "dog")
         /\ storage.applyImplicationsForTag "animal" implications
            = OrExpression
                (OrExpression (OrExpression (TagExpression "animal") (TagExpression first))
                              (TagExpression second))
                (TagExpression "puppy"))
  /\ equivalent (storage.applyImplicationsForTag "animal" implications)
                (OrExpression (TagExpression "animal")
                   (OrExpression (TagExpression "dog")
                      (OrExpression (TagExpression "cat") (TagExpression "puppy")))).
Proof.
  intros Hperm. split; [reflexivity|].
  apply Permutation_three in Hperm.
  destruct Hperm as [->|[->|[->|[->|[->| ->]]]]].
  all: split;
    [ first [ exists "dog", "cat"; split; [left; split; reflexivity | reflexivity]
            | exists "cat", "dog"; split; [right; split; reflexivity | reflexivity] ]
    | intros tagged compared; cbv;
      destruct (tagged "animal"), (tagged "dog"), (tagged "cat"); reflexivity ].
Qed.

Lemma closure_animals_witness :
  Permutation Example.animals (rev Example.animals)
  /\ equivalent (storage.applyImplicationsForTag "animal" (rev Example.animals))
                (OrExpression (TagExpression "animal")
                   (OrExpression (TagExpression "dog")
                      (OrExpression (TagExpression "cat") (TagExpression "puppy")))).
Proof.
  split.
  - apply Permutation_rev.
  - apply (closure_animals (implications := rev Example.animals)). apply Permutation_rev.
Defined.

(** C2: Closure termination: for every implication set, cyclic ones
    included, the loop of leaf expansion reaches its exit on the fuel
    [enoughFuel] and on any more, with the result
    [applyImplicationsForTagAndValue] returns; the result is the leaf with
    one OR-term per entry of the final worklist, in order; and in an
    implication set that keeps the data model's invariants no two entries of
    that worklist share their implying (tag id, value id) pair, so each pair
    is an OR-term at most once. *)
Theorem closure_terminates (implications : Implications) (expression : Expression)
        (tagName valueName : string) :
  (forall fuel,
      storage.enoughFuel implications (ThatImply implications tagName valueName) <= fuel ->
      storage.expandLoop fuel implications 0 (ThatImply implications tagName valueName)
                         expression
      = Some (storage.applyImplicationsForTagAndValue expression tagName valueName implications,
              storage.worklist tagName valueName implications))
  /\ storage.applyImplicationsForTagAndValue expression tagName valueName implications
     = orAll expression (storage.worklist tagName valueName implications)
  /\ (wellFormed implications ->
      NoDup (map storage.implyingPair (storage.worklist tagName valueName implications))).
Proof.
  pose proof (closure_worklist implications expression tagName valueName) as Hrun.
  unfold storage.closure in Hrun.
  split; [|split].
  - intros fuel Hfuel. now apply expandLoop_more_fuel with (fuel' := fuel) in Hrun.
  - apply expandLoop_exit in Hrun as [_ Hexpr]. exact Hexpr.
  - intros Hwf. eapply expandLoop_NoDup; [|exact Hrun].
    now apply ThatImply_NoDup.
Qed.

Lemma closure_terminates_witness :
  wellFormed Example.cycle
  /\ storage.expandLoop 5 Example.cycle 0 (ThatImply Example.cycle "B" "") (TagExpression "B")
     = Some (OrExpression (OrExpression (TagExpression "B") (TagExpression "A"))
                          (TagExpression "B"),
             [Example.valueless Example.tagA Example.tagB;
              Example.valueless Example.tagB Example.tagA])
  /\ NoDup (map storage.implyingPair (storage.worklist "B" "" Example.cycle)).
Proof.
  destruct (closure_terminates Example.cycle (TagExpression "B") "B" "") as (Hfuel & _ & Hnd).
  split; [exact cycle_wellFormed|]. split.
  - rewrite (Hfuel 5); [reflexivity | vm_compute; lia].
  - apply Hnd. exact cycle_wellFormed.
Defined.

(** C4: Equality-only limitation: a Comparison leaf whose operator is not
    "=" comes back unchanged from leaf expansion and from the traversal,
    whatever the implication set; Tag leaves and "=" Comparison leaves are
    the ones handed to the expansion. *)
Theorem comparison_unchanged (tag operator value : string) (implications : Implications) :
  operator <> "=" ->
  storage.applyImplicationsForComparison tag operator value implications
  = ComparisonExpression tag operator value
  /\ storage.addImpliedTagsRecursive (ComparisonExpression tag operator value) implications
     = Returned (ComparisonExpression tag operator value)
  /\ (forall name,
         storage.addImpliedTagsRecursive (TagExpression name) implications
         = Returned (storage.applyImplicationsForTagAndValue
                       (TagExpression name) name "" implications))
  /\ (forall tag' value',
         storage.addImpliedTagsRecursive (ComparisonExpression tag' "=" value') implications
         = Returned (storage.applyImplicationsForTagAndValue
                       (ComparisonExpression tag' "=" value') tag' value' implications)).
Proof.
  intros Hop.
  assert (H : storage.applyImplicationsForComparison tag operator value implications
              = ComparisonExpression tag operator value).
  { unfold storage.applyImplicationsForComparison.
    apply String.eqb_neq in Hop. now rewrite Hop. }
  repeat split.
  - exact H.
  - simpl. now rewrite H.
Qed.

Lemma comparison_unchanged_witness :
  storage.addImpliedTagsRecursive (ComparisonExpression "size" ">" "100") Example.sizes
  = Returned (ComparisonExpression "size" ">" "100")
  /\ storage.addImpliedTagsRecursive (ComparisonExpression "size" "=" "100") Example.sizes
     = Returned (OrExpression
                   (OrExpression (ComparisonExpression "size" "=" "100") (TagExpression "big"))
                   (ComparisonExpression "size" "=" "100")).
Proof.
  destruct (comparison_unchanged "size" (operator := ">") "100" Example.sizes)
    as (_ & Hrec & _ & Heq).
  - discriminate.
  - split; [exact Hrec|]. rewrite Heq. reflexivity.
Defined.

(** C5: Traversal: on an expression built from the closed set of variants
    the expander returns the same And/Or/Not nodes around the independently
    rewritten operands, Empty unchanged and the leaves expanded; an
    expression with a node of any other variant makes it panic with the
    message of the first such node. *)
Theorem traversal_preserves_structure (expression : Expression) (implications : Implications) :
  storage.addImpliedTagsRecursive expression implications
  = match firstUnsupported expression with
    | None => Returned (rewriteLeaves (expandLeaf implications) expression)
    | Some typeName => Panicked ("unsupported expression type '" ++ typeName ++ "'.")%string
    end.
Proof.
  induction expression as [|name|tag operator value|o IHo|l IHl r IHr|l IHl r IHr|typeName];
    simpl.
  - reflexivity.
  - reflexivity.
  - unfold storage.applyImplicationsForComparison.
    now destruct (String.eqb operator "=").
  - rewrite IHo. now destruct (firstUnsupported o).
  - rewrite IHl, IHr. destruct (firstUnsupported l); [reflexivity|].
    now destruct (firstUnsupported r).
  - rewrite IHl, IHr. destruct (firstUnsupported l); [reflexivity|].
    now destruct (firstUnsupported r).
  - reflexivity.
Qed.

(** ** The implication statements *)

Lemma append_assoc (a b c : string) : ((a ++ b) ++ c = a ++ (b ++ c))%string.
Proof. induction a as [|x a IH]; simpl; [reflexivity | now rewrite IH]. Qed.

Lemma append_empty_r (a : string) : (a ++ "" = a)%string.
Proof. induction a as [|x a IH]; simpl; [reflexivity | now rewrite IH]. Qed.

Lemma length_append (a b : string) :
  String.length (a ++ b) = String.length a + String.length b.
Proof. induction a as [|x a IH]; simpl; [reflexivity | now rewrite IH]. Qed.

Lemma stripPrefix_append (prefix rest : string) :
  stripPrefix prefix (prefix ++ rest) = Some rest.
Proof.
  induction prefix as [|c prefix IH]; simpl; [reflexivity|].
  now rewrite Ascii.eqb_refl.
Qed.

Lemma rowEqb_eq (a b : database.Row) : database.rowEqb a b = true <-> a = b.
Proof.
  unfold database.rowEqb. rewrite !andb_true_iff, !N.eqb_eq.
  destruct a, b; simpl. split.
  - intros [[[-> ->] ->] ->]. reflexivity.
  - intros H. injection H as -> -> -> ->. auto.
Qed.

Lemma count_split {A : Type} (f : A -> bool) (l : list A) :
  List.length l - List.length (filter (fun x => negb (f x)) l) = List.length (filter f l).
Proof.
  assert (H : List.length (filter f l) + List.length (filter (fun x => negb (f x)) l)
              = List.length l).
  { induction l as [|x l IH]; [reflexivity|].
    cbn [filter]. destruct (f x); cbn [negb List.length]; lia. }
  lia.
Qed.

Lemma filter_filter_out {A : Type} (f : A -> bool) (l : list A) :
  filter f (filter (fun x => negb (f x)) l) = [].
Proof.
  induction l as [|x l IH]; simpl; [reflexivity|].
  destruct (f x) eqn:Hf; simpl; [assumption|]. now rewrite Hf.
Qed.

Lemma filter_none {A : Type} (f : A -> bool) (l : list A) :
  List.length (filter f l) = 0 -> filter (fun x => negb (f x)) l = l.
Proof.
  induction l as [|x l IH]; simpl; [reflexivity|].
  destruct (f x); simpl; [discriminate|]. intros H. now rewrite IH.
Qed.

(** C6: Exact delete: when the store runs the statement, DeleteImplication
    returns NoSuchImplication exactly when no row has the four ids, and then
    the implication table is as before; with one such row the call returns
    nil and the table has lost that row and no other; with more than one it
    panics. *)
Theorem delete_exact (tx : database.Tx) (tagValuePair impliedTagValuePair : TagValuePair) :
  database.ioError tx database.sqlDeleteImplication = None ->
  (snd (database.DeleteImplication tx tagValuePair impliedTagValuePair)
   = Returned (Some (NoSuchImplicationError tagValuePair impliedTagValuePair))
   <-> stored tx tagValuePair impliedTagValuePair = 0)
  /\ (stored tx tagValuePair impliedTagValuePair = 0 ->
      database.implication (fst (database.DeleteImplication tx tagValuePair impliedTagValuePair))
      = database.implication tx)
  /\ (stored tx tagValuePair impliedTagValuePair = 1 ->
      snd (database.DeleteImplication tx tagValuePair impliedTagValuePair) = Returned None
      /\ database.implication
           (fst (database.DeleteImplication tx tagValuePair impliedTagValuePair))
         = without tx tagValuePair impliedTagValuePair
      /\ stored (fst (database.DeleteImplication tx tagValuePair impliedTagValuePair))
                tagValuePair impliedTagValuePair = 0)
  /\ (1 < stored tx tagValuePair impliedTagValuePair ->
      snd (database.DeleteImplication tx tagValuePair impliedTagValuePair)
      = Panicked "expected exactly one row to be affected").
Proof.
  intros Hio.
  assert (Hprep : database.prepare database.sqlDeleteImplication
                  = Some database.DeleteImplicationWhere) by (vm_compute; reflexivity).
  unfold database.DeleteImplication, database.Exec, database.pairParams.
  rewrite Hio, Hprep.
  fold (rowOf tagValuePair impliedTagValuePair).
  fold (without tx tagValuePair impliedTagValuePair).
  pose proof (count_split (database.rowEqb (rowOf tagValuePair impliedTagValuePair))
                          (database.implication tx)) as Hcount.
  fold (without tx tagValuePair impliedTagValuePair) in Hcount.
  fold (stored tx tagValuePair impliedTagValuePair) in Hcount.
  cbn [fst snd]. rewrite Hcount.
  destruct (stored tx tagValuePair impliedTagValuePair) as [|[|k]] eqn:Hstored.
  - cbn. repeat split; try easy; try lia.
    intros _. unfold without. apply filter_none. exact Hstored.
  - cbn. repeat split; try easy; try lia.
    unfold stored, without. cbn. now rewrite filter_filter_out.
  - assert (Hz : N.eqb (N.of_nat (S (S k))) 0 = false) by (apply N.eqb_neq; lia).
    assert (Hl : N.ltb 1 (N.of_nat (S (S k))) = true) by (apply N.ltb_lt; lia).
    rewrite Hz, Hl. cbn [fst snd]. repeat split; try easy; try lia.
Qed.

Lemma delete_exact_witness :
  stored Example.animalsTx Example.dogPair Example.animalPair = 1
  /\ snd (database.DeleteImplication Example.animalsTx Example.dogPair Example.animalPair)
     = Returned None
  /\ snd (database.DeleteImplication Example.animalsTx Example.animalPair Example.dogPair)
     = Returned (Some (NoSuchImplicationError Example.animalPair Example.dogPair)).
Proof.
  split; [reflexivity|]. split.
  - apply (delete_exact Example.animalsTx Example.dogPair Example.animalPair); reflexivity.
  - apply (delete_exact Example.animalsTx Example.animalPair Example.dogPair); reflexivity.
Defined.

Lemma existsb_count (row : database.Row) (table : list database.Row) :
  existsb (database.rowEqb row) table = true
  <-> 0 < List.length (filter (database.rowEqb row) table).
Proof.
  induction table as [|r table IH]; simpl; [split; [discriminate | lia]|].
  destruct (database.rowEqb row r); simpl; [split; [lia | reflexivity] | exact IH].
Qed.

Lemma insertOrIgnore_present (row : database.Row) (table : list database.Row) :
  0 < List.length (filter (database.rowEqb row) table) ->
  database.insertOrIgnore row table = table.
Proof.
  intros H. apply existsb_count in H. unfold database.insertOrIgnore. now rewrite H.
Qed.

Lemma insertOrIgnore_count (row : database.Row) (table : list database.Row) :
  List.length (filter (database.rowEqb row) (database.insertOrIgnore row table))
  = Nat.max 1 (List.length (filter (database.rowEqb row) table)).
Proof.
  unfold database.insertOrIgnore.
  destruct (existsb (database.rowEqb row) table) eqn:Hex.
  - apply existsb_count in Hex. lia.
  - assert (Hzero : List.length (filter (database.rowEqb row) table) = 0).
    { destruct (List.length (filter (database.rowEqb row) table)) eqn:Hlen; [reflexivity|].
      assert (Hpos : existsb (database.rowEqb row) table = true)
        by (apply existsb_count; lia).
      congruence. }
    assert (Hself : database.rowEqb row row = true) by now apply rowEqb_eq.
    rewrite filter_app, length_app. cbn [filter]. rewrite Hself. cbn [List.length]. lia.
Qed.

(** C7: Idempotent add: when the store runs the statement, adding an
    implication that is stored already returns nil and changes nothing, so
    adding the same implication twice to a table that keeps the four ids
    unique returns nil both times and leaves exactly one row with them. *)
Theorem add_idempotent (tx : database.Tx) (tagValuePair impliedTagValuePair : TagValuePair) :
  database.ioError tx database.sqlAddImplication = None ->
  stored tx tagValuePair impliedTagValuePair <= 1 ->
  let once := database.AddImplication tx tagValuePair impliedTagValuePair in
  let twice := database.AddImplication (fst once) tagValuePair impliedTagValuePair in
  snd once = None
  /\ snd twice = None
  /\ fst twice = fst once
  /\ stored (fst twice) tagValuePair impliedTagValuePair = 1
  /\ (stored tx tagValuePair impliedTagValuePair = 1 -> fst once = tx).
Proof.
  intros Hio Hunique.
  assert (Hprep : database.prepare database.sqlAddImplication
                  = Some database.InsertOrIgnoreImplication) by (vm_compute; reflexivity).
  assert (Hadd : forall t, database.ioError t database.sqlAddImplication = None ->
            database.AddImplication t tagValuePair impliedTagValuePair
            = (database.withImplication t
                 (database.insertOrIgnore (rowOf tagValuePair impliedTagValuePair)
                                          (database.implication t)), None)).
  { intros t Ht. unfold database.AddImplication, database.Exec, database.pairParams.
    now rewrite Ht, Hprep. }
  pose proof (insertOrIgnore_count (rowOf tagValuePair impliedTagValuePair)
                                   (database.implication tx)) as Hcount.
  assert (Hidem : database.insertOrIgnore (rowOf tagValuePair impliedTagValuePair)
                    (database.insertOrIgnore (rowOf tagValuePair impliedTagValuePair)
                                             (database.implication tx))
                  = database.insertOrIgnore (rowOf tagValuePair impliedTagValuePair)
                                            (database.implication tx)).
  { apply insertOrIgnore_present. rewrite Hcount. lia. }
  unfold stored in *.
  cbv zeta. rewrite (Hadd tx Hio). cbn [fst snd].
  rewrite Hadd by exact Hio. cbn [fst snd].
  unfold database.withImplication.
  cbn [database.implication database.tag database.value database.file
       database.file_tag database.ioError].
  rewrite Hidem, Hcount.
  repeat split.
  - lia.
  - intros Hone. rewrite insertOrIgnore_present by lia. now destruct tx.
Qed.

Lemma add_idempotent_witness :
  stored Example.animalsTx Example.catPair Example.dogPair = 0
  /\ stored (fst (database.AddImplication
                    (fst (database.AddImplication Example.animalsTx
                                                  Example.catPair Example.dogPair))
                    Example.catPair Example.dogPair))
            Example.catPair Example.dogPair = 1.
Proof.
  split; [reflexivity|].
  apply (add_idempotent Example.animalsTx Example.catPair Example.dogPair);
    [reflexivity | vm_compute; lia].
Defined.

Lemma disjunction_cons (p : TagValuePair) (rest : list TagValuePair) :
  disjunction (p :: rest)
  = (database.sqlPairClause
     ++ match rest with
        | [] => ""
        | _ :: _ => database.sqlOr ++ disjunction rest
        end)%string.
Proof.
  unfold disjunction. destruct rest as [|q rest]; cbn [map String.concat].
  - now rewrite append_empty_r.
  - reflexivity.
Qed.

(** The loop over the pairs writes an OR in front of every clause but the
    first of the call, and the two ids of every pair in input order. *)
Lemma whereLoop_writes (tagValuePairs : list TagValuePair) :
  forall index sql params,
    database.whereLoop index tagValuePairs sql params
    = ((sql ++ match tagValuePairs with
               | [] => ""
               | _ :: _ => (if Nat.ltb 0 index then database.sqlOr else "")
                           ++ disjunction tagValuePairs
               end)%string,
       params ++ parametersOf tagValuePairs).
Proof.
  induction tagValuePairs as [|p rest IH]; intros index sql params.
  - cbn [database.whereLoop parametersOf flat_map]. now rewrite append_empty_r, app_nil_r.
  - cbn [database.whereLoop]. rewrite IH. f_equal.
    + rewrite (disjunction_cons p rest).
      assert (Hsep : (if Nat.ltb 0 index then (sql ++ database.sqlOr)%string else sql)
                     = (sql ++ (if Nat.ltb 0 index then database.sqlOr else ""))%string).
      { destruct (Nat.ltb 0 index); [reflexivity | now rewrite append_empty_r]. }
      rewrite Hsep, !append_assoc.
      destruct rest; reflexivity.
    + unfold parametersOf. cbn [flat_map]. now rewrite <- app_assoc.
Qed.

Lemma disjunction_length (tagValuePairs : list TagValuePair) :
  List.length tagValuePairs <= String.length (disjunction tagValuePairs).
Proof.
  assert (Hclause : 1 <= String.length database.sqlPairClause) by (vm_compute; lia).
  induction tagValuePairs as [|p rest IH]; [apply Nat.le_0_l|].
  rewrite disjunction_cons, length_append. destruct rest as [|q rest].
  - cbn [List.length String.length]. lia.
  - rewrite length_append. cbn [List.length] in *. lia.
Qed.

(** The store reads a condition of one clause per pair as such. *)
Lemma parseCondition_disjunction (rest : list TagValuePair) :
  forall p fuel tail,
    List.length (p :: rest) <= fuel ->
    stripPrefix database.sqlOr tail = None ->
    database.parseCondition fuel (disjunction (p :: rest) ++ tail)
    = Some (List.length (p :: rest), tail).
Proof.
  induction rest as [|q rest IH]; intros p fuel tail Hfuel Htail;
    (destruct fuel as [|fuel]; [cbn [List.length] in Hfuel; lia|]);
    rewrite disjunction_cons, append_assoc; cbn [database.parseCondition];
    rewrite stripPrefix_append.
  - cbn [append]. now rewrite Htail.
  - rewrite append_assoc, stripPrefix_append.
    rewrite IH; [reflexivity | cbn [List.length] in *; lia | assumption].
Qed.

(** C10: ImplicationsFor on no pairs: the statement is the SELECT up to its
    WHERE keyword with the ORDER BY right behind it, the store does not
    accept it, and the call returns no implications and an error of the
    store.  On a non-empty input the condition is the disjunction of one
    (tag_id, value_id) clause per pair, the parameters are the ids of the
    pairs in input order, and the store takes the statement as a selection on
    that many pairs. *)
Theorem implicationsFor_condition :
  database.implicationsForQuery []
  = ((database.sqlImplicationsForSelect ++ database.sqlOrderBy)%string, [])
  /\ database.prepare (fst (database.implicationsForQuery [])) = None
  /\ (forall tx, exists message,
         database.ImplicationsFor tx [] = ([], Some (StoreError message)))
  /\ (forall pair rest,
         database.implicationsForQuery (pair :: rest)
         = ((database.sqlImplicationsForSelect ++ disjunction (pair :: rest)
             ++ database.sqlOrderBy)%string,
            parametersOf (pair :: rest))
         /\ database.prepare (fst (database.implicationsForQuery (pair :: rest)))
            = Some (database.SelectImplicationsFor (List.length (pair :: rest)))).
Proof.
  assert (Hempty : database.implicationsForQuery []
                   = ((database.sqlImplicationsForSelect ++ database.sqlOrderBy)%string, []))
    by reflexivity.
  assert (Hnone : database.prepare
                    (database.sqlImplicationsForSelect ++ database.sqlOrderBy)%string = None)
    by (vm_compute; reflexivity).
  split; [exact Hempty|]. split; [rewrite Hempty; exact Hnone|]. split.
  - intros tx. unfold database.ImplicationsFor. rewrite Hempty.
    unfold database.Query.
    destruct (database.ioError tx _) as [message|]; [now exists message|].
    rewrite Hnone. now exists "syntax error".
  - intros pair rest.
    assert (Hquery : database.implicationsForQuery (pair :: rest)
                     = ((database.sqlImplicationsForSelect ++ disjunction (pair :: rest)
                         ++ database.sqlOrderBy)%string,
                        parametersOf (pair :: rest))).
    { unfold database.implicationsForQuery. rewrite whereLoop_writes.
      cbn [Nat.ltb Nat.leb app]. now rewrite append_assoc. }
    split; [exact Hquery|]. rewrite Hquery. cbn [fst].
    set (condition := (disjunction (pair :: rest) ++ database.sqlOrderBy)%string).
    unfold database.prepare.
    assert (H1 : String.eqb (database.sqlImplicationsForSelect ++ condition)
                            database.sqlImplications = false)
      by (generalize condition; intros c; vm_compute; reflexivity).
    assert (H2 : String.eqb (database.sqlImplicationsForSelect ++ condition)
                            database.sqlAddImplication = false)
      by (generalize condition; intros c; vm_compute; reflexivity).
    assert (H3 : String.eqb (database.sqlImplicationsForSelect ++ condition)
                            database.sqlDeleteImplication = false)
      by (generalize condition; intros c; vm_compute; reflexivity).
    rewrite H1, H2, H3, stripPrefix_append.
    unfold condition. rewrite parseCondition_disjunction.
    + now rewrite String.eqb_refl.
    + rewrite length_append. pose proof (disjunction_length (pair :: rest)). lia.
    + vm_compute. reflexivity.
Qed.

(** ** Paths and queries *)

(** C8: Path round trip: under the root /root the file /root/sub/pic.jpg
    is handed to the database as sub/pic.jpg and its row holds the directory
    "sub", which does not begin with a separator; materialising that row
    joins the root back on and gives /root/sub, and this is the file AddFile
    returns.  For every file, absPath returns it unchanged when its directory
    is empty or begins with a separator, and otherwise with the root joined
    onto the directory. *)
Theorem path_round_trip (tx : database.Tx) (fingerprint : string) (modTime size : N)
        (isDir : bool) :
  let added :=
    storage.AddFile Example.root tx "/root/sub/pic.jpg" fingerprint modTime size isDir in
  storage.relPath Example.root "/root/sub/pic.jpg" = "sub/pic.jpg"
  /\ (exists row,
         database.file (fst added) = database.file tx ++ [row]
         /\ File.Directory row = "sub"
         /\ File.Name row = "pic.jpg"
         /\ isRooted (File.Directory row) = false
         /\ storage.absPath Example.root (Some row)
            = Some (storage.withDirectory row "/root/sub")
         /\ fst (snd added) = Some (storage.withDirectory row "/root/sub"))
  /\ (forall st file,
         storage.absPath st (Some file)
         = if String.eqb (File.Directory file) "" || isRooted (File.Directory file)
           then Some file
           else Some (storage.withDirectory
                        file (Join [storage.RootPath st; File.Directory file]))).
Proof.
  cbv zeta. split; [reflexivity|]. split.
  - exists (File.mk (N.succ (fold_right N.max 0%N (map File.Id (database.file tx))))
                    "sub" "pic.jpg" fingerprint modTime size isDir).
    repeat split; reflexivity.
  - intros st file. unfold storage.absPath.
    destruct (File.Directory file) as [|c directory]; [reflexivity|].
    cbn [String.eqb isRooted orb]. now destruct (Ascii.eqb c Separator).
Qed.

(** C9: Explicit-only queries: when the file queries of the database
    package do not read the implication table, QueryFileCount and QueryFiles
    with explicitOnly set return the same on two states that differ in the
    implication table only, for every expression, path and sort order. *)
Theorem explicit_only_ignores_implications
        (database_QueryFileCount : database.Tx -> Expression -> string -> N * option Error)
        (database_QueryFiles :
           database.Tx -> Expression -> string -> string -> Files * option Error)
        (st : storage.Storage) (tx : database.Tx) (rows : list database.Row)
        (expression : Expression) (path sort : string) :
  (forall tx rows e p,
      database_QueryFileCount (database.withImplication tx rows) e p
      = database_QueryFileCount tx e p) ->
  (forall tx rows e p s,
      database_QueryFiles (database.withImplication tx rows) e p s
      = database_QueryFiles tx e p s) ->
  storage.QueryFileCount database_QueryFileCount st
                         (database.withImplication tx rows) expression path true
  = storage.QueryFileCount database_QueryFileCount st tx expression path true
  /\ storage.QueryFiles database_QueryFiles st
                        (database.withImplication tx rows) expression path true sort
     = storage.QueryFiles database_QueryFiles st tx expression path true sort.
Proof.
  intros Hcount Hfiles. unfold storage.QueryFileCount, storage.QueryFiles.
  cbn [negb]. now rewrite Hcount, Hfiles.
Qed.

Lemma explicit_only_ignores_implications_witness :
  storage.QueryFileCount Example.queryFileCount Example.root
                         (database.withImplication Example.animalsTx [])
                         (TagExpression "animal") "" true
  = storage.QueryFileCount Example.queryFileCount Example.root Example.animalsTx
                           (TagExpression "animal") "" true
  /\ storage.QueryFileCount Example.queryFileCount Example.root
                            (database.withImplication Example.animalsTx [])
                            (TagExpression "animal") "" false
     <> storage.QueryFileCount Example.queryFileCount Example.root Example.animalsTx
                               (TagExpression "animal") "" false.
Proof.
  split.
  - apply (explicit_only_ignores_implications
             Example.queryFileCount Example.queryFiles Example.root Example.animalsTx []
             (TagExpression "animal") "" "").
    + intros; reflexivity.
    + intros; reflexivity.
  - vm_compute. discriminate.
Defined.

(** Whatever the store answers, [addImpliedTags] has no error to return. *)
Lemma addImpliedTags_error_is_nil (tx : database.Tx) (expression : Expression)
      (result : Expression * option Error) :
  storage.addImpliedTags tx expression = Returned result -> snd result = None.
Proof.
  unfold storage.addImpliedTags.
  destruct (storage.Implications tx) as [implications err].
  destruct (storage.addImpliedTagsRecursive expression implications); simpl; [|discriminate].
  now intros [= <-].
Qed.

(** C3: Storage errors in the query path, at a store that fails to read
    the implications: [Implications] returns the error of the store, but
    [addImpliedTags] returns a nil error with the expression expanded over no
    implications, and QueryFileCount and QueryFiles go on to answer the
    query without implied tags and with a nil error. *)
Theorem addImpliedTags_drops_error :
  storage.Implications Example.failingTx = ([], Some (StoreError "disk I/O error"))
  /\ storage.addImpliedTags Example.failingTx (TagExpression "animal")
     = Returned (TagExpression "animal", None)
  /\ storage.QueryFileCount Example.queryFileCount Example.root Example.failingTx
                            (TagExpression "animal") "" false
     = Returned (1%N, None)
  /\ snd (database.Implications Example.animalsTx) = None
  /\ storage.QueryFileCount Example.queryFileCount Example.root Example.animalsTx
                            (TagExpression "animal") "" false
     = Returned (2%N, None)
  /\ (exists files,
         storage.QueryFiles Example.queryFiles Example.root Example.failingTx
                            (TagExpression "animal") "" false ""
         = Returned (files, None)).
Proof.
  repeat split; try (vm_compute; reflexivity).
  eexists. vm_compute. reflexivity.
Qed.

(** * Further properties *)

(** ** The closure expander: what the worklist holds *)

Lemma ThatImply_In (implications : Implications) (tagName valueName : string) (i : Implication) :
  In i (ThatImply implications tagName valueName)
  <-> In i implications /\ impliedNames i = (tagName, valueName).
Proof.
  unfold ThatImply, impliedNames. rewrite filter_In, andb_true_iff, !String.eqb_eq.
  split.
  - intros (Hin & -> & ->). auto.
  - intros (Hin & Heq). injection Heq as -> ->. auto.
Qed.

Lemma closure_run (implications : Implications) (expression : Expression)
      (tagName valueName : string) :
  storage.expandLoop
    (storage.enoughFuel implications (ThatImply implications tagName valueName))
    implications 0 (ThatImply implications tagName valueName) expression
  = Some (storage.applyImplicationsForTagAndValue expression tagName valueName implications,
          storage.worklist tagName valueName implications).
Proof. exact (closure_worklist implications expression tagName valueName). Qed.

Lemma apply_orAll (implications : Implications) (expression : Expression)
      (tagName valueName : string) :
  storage.applyImplicationsForTagAndValue expression tagName valueName implications
  = orAll expression (storage.worklist tagName valueName implications).
Proof.
  pose proof (closure_run implications expression tagName valueName) as Hrun.
  now apply expandLoop_exit in Hrun as [_ Hexpr].
Qed.

(** X1: a leaf that no implication of the set implies comes back as it is. *)
Theorem leaf_not_implied (implications : Implications) (expression : Expression)
        (tagName valueName : string) :
  ThatImply implications tagName valueName = [] ->
  storage.applyImplicationsForTagAndValue expression tagName valueName implications
  = expression.
Proof.
  intros Hnone. unfold storage.applyImplicationsForTagAndValue, storage.closure.
  rewrite Hnone. reflexivity.
Qed.

Lemma leaf_not_implied_witness :
  ThatImply Example.animals "puppy" "" = []
  /\ storage.applyImplicationsForTagAndValue (TagExpression "puppy") "puppy" "" Example.animals
     = TagExpression "puppy".
Proof.
  split; [reflexivity|].
  apply (leaf_not_implied Example.animals (TagExpression "puppy") "puppy" ""). reflexivity.
Defined.

Lemma expand_over_nothing (expression : Expression) :
  storage.addImpliedTagsRecursive expression []
  = match firstUnsupported expression with
    | None => Returned expression
    | Some typeName => Panicked ("unsupported expression type '" ++ typeName ++ "'.")%string
    end.
Proof.
  induction expression as [|name|tag operator value|o IHo|l IHl r IHr|l IHl r IHr|typeName];
    simpl; try reflexivity.
  - unfold storage.applyImplicationsForComparison.
    now destruct (String.eqb operator "=").
  - rewrite IHo. now destruct (firstUnsupported o).
  - rewrite IHl, IHr. destruct (firstUnsupported l); [reflexivity|].
    now destruct (firstUnsupported r).
  - rewrite IHl, IHr. destruct (firstUnsupported l); [reflexivity|].
    now destruct (firstUnsupported r).
Qed.

(** X2: over the empty implication set the traversal returns a supported
    expression unchanged, whatever its shape. *)
Theorem expander_empty_set (expression : Expression) :
  storage.addImpliedTagsRecursive expression []
  = match firstUnsupported expression with
    | None => Returned expression
    | Some typeName => Panicked ("unsupported expression type '" ++ typeName ++ "'.")%string
    end.
Proof.
  induction expression as [|name|tag operator value|o IHo|l IHl r IHr|l IHl r IHr|typeName];
    simpl; try reflexivity.
  - unfold storage.applyImplicationsForComparison.
    now destruct (String.eqb operator "=").
  - rewrite IHo. now destruct (firstUnsupported o).
  - rewrite IHl, IHr. destruct (firstUnsupported l); [reflexivity|].
    now destruct (firstUnsupported r).
  - rewrite IHl, IHr. destruct (firstUnsupported l); [reflexivity|].
    now destruct (firstUnsupported r).
Qed.

Section Worklist.

Variable implications : Implications.

Lemma appendFurther_cons (relevant rest : Implications) (x : Implication) :
  storage.appendFurther relevant (x :: rest)
  = storage.appendFurther
      (if negb (Any (storage.sameImplying x) relevant) then relevant ++ [x] else relevant)
      rest.
Proof. reflexivity. Qed.

Lemma appendFurther_covers (further : Implications) :
  forall relevant fi,
    In fi further ->
    In (storage.implyingPair fi)
       (map storage.implyingPair (storage.appendFurther relevant further)).
Proof.
  induction further as [|x rest IH]; intros relevant fi Hin; [destruct Hin|].
  rewrite appendFurther_cons. destruct Hin as [<- | Hin]; [|now apply IH].
  destruct (appendFurther_appends rest
              (if negb (Any (storage.sameImplying x) relevant)
               then relevant ++ [x] else relevant)) as (added & -> & _).
  rewrite map_app, in_app_iff. left.
  destruct (Any (storage.sameImplying x) relevant) eqn:Hany; cbn [negb].
  - now apply Any_sameImplying.
  - rewrite map_app, in_app_iff. right. now left.
Qed.

Lemma expandLoop_closed :
  forall fuel index relevant expression expression' final,
    storage.expandLoop fuel implications index relevant expression = Some (expression', final) ->
    passed implications index relevant ->
    passed implications (List.length final) final.
Proof.
  induction fuel as [|fuel IH]; intros index relevant expression expression' final Hrun Hpassed.
  - discriminate.
  - simpl in Hrun. destruct (nth_error relevant index) as [ri|] eqn:Hnth.
    + apply IH in Hrun; [assumption|].
      destruct (appendFurther_appends
                  (ThatImply implications (Tag.Name (ImplyingTag ri))
                             (Value.Name (ImplyingValue ri))) relevant)
        as (added & Happ & _).
      assert (Hlt : index < List.length relevant) by (apply nth_error_Some; congruence).
      intros k w i Hk Hw Hi Hnames.
      assert (Hk' : k < List.length relevant) by lia.
      rewrite Happ, nth_error_app1 in Hw by exact Hk'.
      destruct (Nat.eq_dec k index) as [-> | Hne].
      * assert (w = ri) by congruence. subst w.
        apply appendFurther_covers. apply ThatImply_In. split; [assumption|].
        exact Hnames.
      * rewrite Happ, map_app, in_app_iff. left.
        apply (Hpassed k w i); [lia | assumption | assumption | assumption].
    + injection Hrun as <- <-. apply nth_error_None in Hnth.
      intros k w i Hk Hw Hi Hnames.
      apply (Hpassed k w i); [|assumption|assumption|assumption].
      assert (k < List.length relevant) by (apply nth_error_Some; congruence). lia.
Qed.

Lemma expandLoop_reaches (tagName valueName : string) :
  forall fuel index relevant expression expression' final,
    storage.expandLoop fuel implications index relevant expression = Some (expression', final) ->
    Forall (reaches implications tagName valueName) relevant ->
    Forall (reaches implications tagName valueName) final.
Proof.
  induction fuel as [|fuel IH]; intros index relevant expression expression' final Hrun Hall.
  - discriminate.
  - simpl in Hrun. destruct (nth_error relevant index) as [ri|] eqn:Hnth.
    + apply IH in Hrun; [assumption|].
      destruct (appendFurther_appends
                  (ThatImply implications (Tag.Name (ImplyingTag ri))
                             (Value.Name (ImplyingValue ri))) relevant)
        as (added & -> & Hincl & _).
      apply Forall_app. split; [assumption|].
      apply Forall_forall. intros a Ha. apply Hincl, ThatImply_In in Ha as [Hin Hnames].
      apply reaches_step with (j := ri); try assumption.
      apply nth_error_In in Hnth. rewrite Forall_forall in Hall. now apply Hall.
    + now injection Hrun as <- <-.
Qed.

Lemma expandLoop_grown (seed : Implications) :
  forall fuel index relevant expression expression' final,
    storage.expandLoop fuel implications index relevant expression = Some (expression', final) ->
    grownFrom implications seed relevant ->
    grownFrom implications seed final.
Proof.
  induction fuel as [|fuel IH]; intros index relevant expression expression' final Hrun Hgrown.
  - discriminate.
  - simpl in Hrun. destruct (nth_error relevant index) as [ri|].
    + apply IH in Hrun; [assumption|]. now apply grownFrom_appendFurther.
    + now injection Hrun as <- <-.
Qed.

End Worklist.

Lemma worklist_entries_reach (implications : Implications) (tagName valueName : string)
      (w : Implication) :
  In w (storage.worklist tagName valueName implications) ->
  In w implications /\ reaches implications tagName valueName w.
Proof.
  intros Hw.
  pose proof (closure_run implications EmptyExpression tagName valueName) as Hrun.
  apply expandLoop_reaches with (tagName := tagName) (valueName := valueName) in Hrun.
  - rewrite Forall_forall in Hrun. specialize (Hrun w Hw).
    split; [|assumption]. now destruct Hrun.
  - apply Forall_forall. intros i Hi. apply ThatImply_In in Hi as [Hin Hnames].
    now apply reaches_leaf.
Qed.

Lemma worklist_holds_seed (implications : Implications) (tagName valueName : string)
      (i : Implication) :
  In i implications -> impliedNames i = (tagName, valueName) ->
  In i (storage.worklist tagName valueName implications).
Proof.
  intros Hin Hnames.
  pose proof (closure_run implications EmptyExpression tagName valueName) as Hrun.
  apply expandLoop_exit in Hrun as [(more & ->) _].
  apply in_app_iff. left. now apply ThatImply_In.
Qed.

Lemma worklist_holds_further (implications : Implications) (tagName valueName : string)
      (w i : Implication) :
  In w (storage.worklist tagName valueName implications) ->
  In i implications -> impliedNames i = implyingNames w ->
  In (storage.implyingPair i)
     (map storage.implyingPair (storage.worklist tagName valueName implications)).
Proof.
  intros Hw Hin Hnames.
  pose proof (closure_run implications EmptyExpression tagName valueName) as Hrun.
  apply expandLoop_closed in Hrun.
  - apply In_nth_error in Hw as (k & Hk).
    apply (Hrun k w i); try assumption.
    apply nth_error_Some. congruence.
  - intros k w' i' Hk. lia.
Qed.

(** X3: every entry of the final worklist, hence every OR-term of an
    expanded leaf, is an implication of the set that reaches the leaf's pair
    through a chain of implications of the set. *)
Theorem worklist_reaches (implications : Implications) (tagName valueName : string)
        (w : Implication) :
  In w (storage.worklist tagName valueName implications) ->
  In w implications /\ reaches implications tagName valueName w.
Proof.
  intros Hw.
  pose proof (closure_run implications EmptyExpression tagName valueName) as Hrun.
  apply expandLoop_reaches with (tagName := tagName) (valueName := valueName) in Hrun.
  - rewrite Forall_forall in Hrun. specialize (Hrun w Hw).
    split; [|assumption]. now destruct Hrun.
  - apply Forall_forall. intros i Hi. apply ThatImply_In in Hi as [Hin Hnames].
    now apply reaches_leaf.
Qed.

Lemma worklist_reaches_witness :
  In (Example.valueless Example.puppy Example.dog)
     (storage.worklist "animal" "" Example2.pets)
  /\ reaches Example2.pets "animal" "" (Example.valueless Example.puppy Example.dog).
Proof.
  assert (Hin : In (Example.valueless Example.puppy Example.dog)
                   (storage.worklist "animal" "" Example2.pets))
    by (vm_compute; auto).
  split; [exact Hin|].
  apply (worklist_reaches Example2.pets "animal" "" _ Hin).
Defined.

(** X4: the final worklist is closed: it holds every implication of the set
    that implies the leaf's pair, and for every entry it holds, the implying
    ids of every implication of the set that implies that entry's implying
    side. *)
Theorem worklist_closed (implications : Implications) (tagName valueName : string) :
  (forall i, In i implications -> impliedNames i = (tagName, valueName) ->
             In i (storage.worklist tagName valueName implications))
  /\ (forall w i,
         In w (storage.worklist tagName valueName implications) ->
         In i implications -> impliedNames i = implyingNames w ->
         In (storage.implyingPair i)
            (map storage.implyingPair (storage.worklist tagName valueName implications))).
Proof.
  split.
  - intros i. apply worklist_holds_seed.
  - intros w i. apply worklist_holds_further.
Qed.

(** X5: when an id stands for one name on the implying sides, the worklist
    is complete: the implying ids of every implication that reaches the
    leaf's pair are among its entries. *)
Theorem worklist_complete (implications : Implications) (tagName valueName : string)
        (i : Implication) :
  namedById implications ->
  reaches implications tagName valueName i ->
  In (storage.implyingPair i)
     (map storage.implyingPair (storage.worklist tagName valueName implications)).
Proof.
  intros Hnamed Hreach.
  induction Hreach as [i Hin Hnames | i j Hj IH Hin Hnames].
  - apply in_map. now apply worklist_holds_seed.
  - apply in_map_iff in IH as (w & Hpair & Hw).
    apply (worklist_holds_further _ _ _ Hw Hin). rewrite Hnames. symmetry.
    apply Hnamed; try assumption.
    + now apply worklist_entries_reach in Hw.
    + clear -Hj. now destruct Hj.
Qed.

Lemma pets_namedById : namedById Example2.pets.
Proof.
  intros a b [<-|[<-|[<-|[]]]] [<-|[<-|[<-|[]]]]; simpl; intros H;
    (reflexivity || discriminate H).
Qed.

Lemma pets_puppy_reaches :
  reaches Example2.pets "animal" "" (Example.valueless Example.puppy Example.dog).
Proof.
  apply reaches_step with (j := Example.valueless Example.dog Example.animal).
  - apply reaches_leaf; [simpl; auto | reflexivity].
  - simpl; auto.
  - reflexivity.
Qed.

Lemma worklist_complete_witness :
  namedById Example2.pets
  /\ In (3%N, 0%N)
        (map storage.implyingPair (storage.worklist "animal" "" Example2.pets))
  /\ ~ In (5%N, 0%N)
          (map storage.implyingPair (storage.worklist "animal" "" Example2.pets)).
Proof.
  split; [exact pets_namedById|]. split.
  - exact (worklist_complete (tagName := "animal") (valueName := "")
             pets_namedById pets_puppy_reaches).
  - vm_compute. intuition discriminate.
Defined.

(** X6: an expanded leaf gains at most as many OR-terms as the leaf has
    direct implications plus the set has implications. *)
Theorem worklist_bound (implications : Implications) (tagName valueName : string) :
  List.length (storage.worklist tagName valueName implications)
  <= List.length (ThatImply implications tagName valueName) + List.length implications
  /\ List.length (ThatImply implications tagName valueName) <= List.length implications.
Proof.
  split.
  - apply grownFrom_length.
    pose proof (closure_run implications EmptyExpression tagName valueName) as Hrun.
    apply expandLoop_grown with (seed := ThatImply implications tagName valueName) in Hrun;
      [assumption|].
    exists []. rewrite app_nil_r. repeat split; [constructor | easy].
  - unfold ThatImply. apply filter_length_le.
Qed.

Lemma matches_orAll (tagged : string -> bool) (compared : string -> string -> string -> bool)
      (entries : Implications) :
  forall expression,
    matches tagged compared (orAll expression entries)
    = matches tagged compared expression
      || existsb (fun w => matches tagged compared (storage.implyingTerm w)) entries.
Proof.
  unfold orAll. induction entries as [|w entries IH]; intros expression; cbn [fold_left existsb].
  - now rewrite orb_false_r.
  - rewrite IH. cbn [matches]. now rewrite orb_assoc.
Qed.

(** X7: an expanded leaf matches exactly when the leaf or the term of some
    worklist entry matches; so whatever matched the leaf still matches. *)
Theorem expanded_leaf_matches (implications : Implications) (expression : Expression)
        (tagName valueName : string)
        (tagged : string -> bool) (compared : string -> string -> string -> bool) :
  matches tagged compared
          (storage.applyImplicationsForTagAndValue expression tagName valueName implications)
  = matches tagged compared expression
    || existsb (fun w => matches tagged compared (storage.implyingTerm w))
               (storage.worklist tagName valueName implications).
Proof. rewrite apply_orAll. apply matches_orAll. Qed.

Lemma firstUnsupported_orAll (entries : Implications) :
  forall expression, firstUnsupported (orAll expression entries) = firstUnsupported expression.
Proof.
  unfold orAll. induction entries as [|w entries IH]; intros expression; cbn [fold_left].
  - reflexivity.
  - rewrite IH. cbn [firstUnsupported].
    destruct (firstUnsupported expression); [reflexivity|].
    unfold storage.implyingTerm. now destruct (negb _).
Qed.

(** X8: what the traversal returns is built from supported variants only,
    so expanding it once more returns as well. *)
Theorem expanded_is_supported (expression expression' : Expression)
        (implications : Implications) :
  storage.addImpliedTagsRecursive expression implications = Returned expression' ->
  firstUnsupported expression' = None
  /\ exists expression'',
      storage.addImpliedTagsRecursive expression' implications = Returned expression''.
Proof.
  assert (Hsupported : forall e e',
             storage.addImpliedTagsRecursive e implications = Returned e' ->
             firstUnsupported e' = None).
  { induction e as [|name|tag operator value|o IHo|l IHl r IHr|l IHl r IHr|typeName];
      intros e' Hrun; simpl in Hrun.
    - now injection Hrun as <-.
    - injection Hrun as <-. unfold storage.applyImplicationsForTag.
      now rewrite apply_orAll, firstUnsupported_orAll.
    - injection Hrun as <-. unfold storage.applyImplicationsForComparison.
      destruct (negb (String.eqb operator "=")); [reflexivity|].
      now rewrite apply_orAll, firstUnsupported_orAll.
    - destruct (storage.addImpliedTagsRecursive o implications) as [o'|]; [|discriminate].
      injection Hrun as <-. simpl. now apply IHo.
    - destruct (storage.addImpliedTagsRecursive l implications) as [l'|]; [|discriminate].
      destruct (storage.addImpliedTagsRecursive r implications) as [r'|]; [|discriminate].
      injection Hrun as <-. simpl. now rewrite (IHl l' eq_refl), (IHr r' eq_refl).
    - destruct (storage.addImpliedTagsRecursive l implications) as [l'|]; [|discriminate].
      destruct (storage.addImpliedTagsRecursive r implications) as [r'|]; [|discriminate].
      injection Hrun as <-. simpl. now rewrite (IHl l' eq_refl), (IHr r' eq_refl).
    - discriminate. }
  assert (Hreturns : forall e, firstUnsupported e = None ->
             exists e', storage.addImpliedTagsRecursive e implications = Returned e').
  { induction e as [|name|tag operator value|o IHo|l IHl r IHr|l IHl r IHr|typeName];
      intros Hnone; simpl in *; eauto.
    - destruct (IHo Hnone) as (o' & ->). simpl. eauto.
    - destruct (firstUnsupported l); [discriminate|].
      destruct (IHl eq_refl) as (l' & ->), (IHr Hnone) as (r' & ->). simpl. eauto.
    - destruct (firstUnsupported l); [discriminate|].
      destruct (IHl eq_refl) as (l' & ->), (IHr Hnone) as (r' & ->). simpl. eauto.
    - discriminate. }
  intros Hrun. split; [now apply (Hsupported expression)|].
  apply Hreturns. now apply (Hsupported expression).
Qed.

Lemma expanded_is_supported_witness :
  exists expression'',
    storage.addImpliedTagsRecursive
      (OrExpression (OrExpression (TagExpression "B") (TagExpression "A")) (TagExpression "B"))
      Example.cycle
    = Returned expression''.
Proof.
  apply (@expanded_is_supported (TagExpression "B") _ Example.cycle).
  reflexivity.
Defined.

(** ** The implication statements: how the operations compose *)

Lemma prepare_add :
  database.prepare database.sqlAddImplication = Some database.InsertOrIgnoreImplication.
Proof. vm_compute. reflexivity. Qed.

Lemma prepare_delete :
  database.prepare database.sqlDeleteImplication = Some database.DeleteImplicationWhere.
Proof. vm_compute. reflexivity. Qed.

Lemma prepare_select :
  database.prepare database.sqlImplications = Some database.SelectImplications.
Proof. vm_compute. reflexivity. Qed.

Lemma AddImplication_runs (tx : database.Tx) (p q : TagValuePair) :
  database.ioError tx database.sqlAddImplication = None ->
  database.AddImplication tx p q
  = (database.withImplication tx
       (database.insertOrIgnore (rowOf p q) (database.implication tx)), None).
Proof.
  intros Hio. unfold database.AddImplication, database.Exec, database.pairParams.
  now rewrite Hio, prepare_add.
Qed.

Lemma DeleteImplication_runs (tx : database.Tx) (p q : TagValuePair) :
  database.ioError tx database.sqlDeleteImplication = None ->
  database.DeleteImplication tx p q
  = (database.withImplication tx (without tx p q),
     match stored tx p q with
     | 0 => Returned (Some (NoSuchImplicationError p q))
     | 1 => Returned None
     | _ => Panicked "expected exactly one row to be affected"
     end).
Proof.
  intros Hio. unfold database.DeleteImplication, database.Exec, database.pairParams.
  rewrite Hio, prepare_delete.
  fold (rowOf p q). fold (without tx p q).
  pose proof (count_split (database.rowEqb (rowOf p q)) (database.implication tx)) as Hcount.
  fold (without tx p q) in Hcount. fold (stored tx p q) in Hcount.
  cbn [fst snd]. rewrite Hcount.
  destruct (stored tx p q) as [|[|k]]; [reflexivity | reflexivity |].
  assert (Hz : N.eqb (N.of_nat (S (S k))) 0 = false) by (apply N.eqb_neq; lia).
  assert (Hl : N.ltb 1 (N.of_nat (S (S k))) = true) by (apply N.ltb_lt; lia).
  now rewrite Hz, Hl.
Qed.

Lemma stored_without (tx : database.Tx) (p q : TagValuePair) :
  stored (database.withImplication tx (without tx p q)) p q = 0.
Proof.
  unfold stored, without. cbn [database.implication database.withImplication].
  now rewrite filter_filter_out.
Qed.

Lemma withImplication_same (tx : database.Tx) :
  database.withImplication tx (database.implication tx) = tx.
Proof. now destruct tx. Qed.

Lemma withImplication_twice (tx : database.Tx) (a b : list database.Row) :
  database.withImplication (database.withImplication tx a) b = database.withImplication tx b.
Proof. reflexivity. Qed.

(** X9: adding an implication that is not stored and deleting it again
    gives back the table as it was, row for row, and both calls return nil. *)
Theorem add_then_delete (tx : database.Tx) (p q : TagValuePair) :
  database.ioError tx database.sqlAddImplication = None ->
  database.ioError tx database.sqlDeleteImplication = None ->
  stored tx p q = 0 ->
  snd (database.AddImplication tx p q) = None
  /\ database.DeleteImplication (fst (database.AddImplication tx p q)) p q
     = (tx, Returned None).
Proof.
  intros Hadd Hdel Hnone.
  rewrite (AddImplication_runs tx p q Hadd). cbn [fst snd]. split; [reflexivity|].
  rewrite DeleteImplication_runs by exact Hdel.
  assert (Habsent : existsb (database.rowEqb (rowOf p q)) (database.implication tx) = false).
  { destruct (existsb _ _) eqn:Hex; [|reflexivity].
    apply existsb_count in Hex. unfold stored in Hnone. lia. }
  assert (Hself : database.rowEqb (rowOf p q) (rowOf p q) = true) by now apply rowEqb_eq.
  unfold stored, without, database.insertOrIgnore.
  cbn [database.implication database.withImplication]. rewrite Habsent.
  rewrite !filter_app. cbn [filter]. rewrite Hself. cbn [negb].
  unfold stored in Hnone. rewrite (filter_none _ _ Hnone), app_nil_r, length_app.
  rewrite withImplication_twice, withImplication_same.
  apply length_zero_iff_nil in Hnone. rewrite Hnone. reflexivity.
Qed.

Lemma add_then_delete_witness :
  stored Example.animalsTx Example.catPair Example.dogPair = 0
  /\ database.DeleteImplication
       (fst (database.AddImplication Example.animalsTx Example.catPair Example.dogPair))
       Example.catPair Example.dogPair
     = (Example.animalsTx, Returned None).
Proof.
  split; [reflexivity|].
  apply (add_then_delete Example.animalsTx Example.catPair Example.dogPair); reflexivity.
Defined.

(** X10: after a DeleteImplication the store has run, whatever it
    returned, no row with the four ids is left, and deleting the same
    implication again returns NoSuchImplication and changes nothing. *)
Theorem delete_twice (tx : database.Tx) (p q : TagValuePair) :
  database.ioError tx database.sqlDeleteImplication = None ->
  let once := fst (database.DeleteImplication tx p q) in
  stored once p q = 0
  /\ database.DeleteImplication once p q
     = (once, Returned (Some (NoSuchImplicationError p q))).
Proof.
  intros Hio. cbv zeta. rewrite (DeleteImplication_runs tx p q Hio). cbn [fst].
  split; [apply stored_without|].
  rewrite DeleteImplication_runs by exact Hio.
  rewrite stored_without. f_equal.
  rewrite withImplication_twice. f_equal. unfold without at 1.
  cbn [database.implication database.withImplication].
  apply filter_none. apply stored_without.
Qed.

Lemma delete_twice_witness :
  database.DeleteImplication
    (fst (database.DeleteImplication Example.animalsTx Example.dogPair Example.animalPair))
    Example.dogPair Example.animalPair
  = (fst (database.DeleteImplication Example.animalsTx Example.dogPair Example.animalPair),
     Returned (Some (NoSuchImplicationError Example.dogPair Example.animalPair))).
Proof.
  apply (delete_twice Example.animalsTx Example.dogPair Example.animalPair). reflexivity.
Defined.



Lemma sql_cascades_differ :
  String.eqb databaseDeletes.sqlDeleteImplicationsByValueId
             databaseDeletes.sqlDeleteImplicationsByTagId = false.
Proof. vm_compute. reflexivity. Qed.

Lemma DeleteImplicationsByTagId_runs (tx : database.Tx) (tagId : N) :
  database.ioError tx databaseDeletes.sqlDeleteImplicationsByTagId = None ->
  databaseDeletes.DeleteImplicationsByTagId tx tagId
  = (database.withImplication tx
       (filter (fun r => negb (databaseDeletes.mentionsTag tagId r)) (database.implication tx)),
     None).
Proof.
  intros Hio. unfold databaseDeletes.DeleteImplicationsByTagId, databaseDeletes.Exec.
  now rewrite Hio, String.eqb_refl.
Qed.

Lemma DeleteImplicationsByValueId_runs (tx : database.Tx) (valueId : N) :
  database.ioError tx databaseDeletes.sqlDeleteImplicationsByValueId = None ->
  databaseDeletes.DeleteImplicationsByValueId tx valueId
  = (database.withImplication tx
       (filter (fun r => negb (databaseDeletes.mentionsValue valueId r))
               (database.implication tx)),
     None).
Proof.
  intros Hio. unfold databaseDeletes.DeleteImplicationsByValueId, databaseDeletes.Exec.
  now rewrite Hio, sql_cascades_differ, String.eqb_refl.
Qed.

Lemma filter_twice {A : Type} (f : A -> bool) (l : list A) :
  filter f (filter f l) = filter f l.
Proof.
  induction l as [|x l IH]; simpl; [reflexivity|].
  destruct (f x) eqn:Hf; simpl; [now rewrite Hf, IH | assumption].
Qed.

(** X12: DeleteImplicationsByTagId, run by the store, returns nil whether
    or not a row mentions the tag; afterwards the implication table holds
    exactly the rows that had the tag on neither side, the other tables are
    as before, and deleting for the same tag again changes nothing. *)
Theorem delete_by_tag (tx : database.Tx) (tagId : N) :
  database.ioError tx databaseDeletes.sqlDeleteImplicationsByTagId = None ->
  let after := fst (databaseDeletes.DeleteImplicationsByTagId tx tagId) in
  snd (databaseDeletes.DeleteImplicationsByTagId tx tagId) = None
  /\ (forall r, In r (database.implication after)
                <-> In r (database.implication tx)
                    /\ database.tag_id r <> tagId /\ database.implied_tag_id r <> tagId)
  /\ database.withImplication after (database.implication tx) = tx
  /\ databaseDeletes.DeleteImplicationsByTagId after tagId = (after, None).
Proof.
  intros Hio. cbv zeta. rewrite (DeleteImplicationsByTagId_runs tx tagId Hio). cbn [fst snd].
  split; [reflexivity|]. split; [|split].
  - intros r. cbn [database.implication database.withImplication].
    rewrite filter_In. unfold databaseDeletes.mentionsTag.
    rewrite negb_true_iff, orb_false_iff, !N.eqb_neq. tauto.
  - rewrite withImplication_twice. apply withImplication_same.
  - rewrite DeleteImplicationsByTagId_runs by exact Hio.
    rewrite withImplication_twice. cbn [database.implication database.withImplication].
    now rewrite filter_twice.
Qed.

Lemma delete_by_tag_witness :
  database.implication
    (fst (databaseDeletes.DeleteImplicationsByTagId Example.animalsTx 1))
  = [database.mkRow 2 0 4 0]
  /\ snd (databaseDeletes.DeleteImplicationsByTagId Example.animalsTx 9) = None.
Proof.
  split; [reflexivity|].
  apply (delete_by_tag Example.animalsTx 9). reflexivity.
Defined.

(** X13: DeleteImplicationsByValueId, run by the store, returns nil whether
    or not a row mentions the value; afterwards the implication table holds
    exactly the rows that had the value on neither side, the other tables
    are as before, and deleting for the same value again changes nothing. *)
Theorem delete_by_value (tx : database.Tx) (valueId : N) :
  database.ioError tx databaseDeletes.sqlDeleteImplicationsByValueId = None ->
  let after := fst (databaseDeletes.DeleteImplicationsByValueId tx valueId) in
  snd (databaseDeletes.DeleteImplicationsByValueId tx valueId) = None
  /\ (forall r, In r (database.implication after)
                <-> In r (database.implication tx)
                    /\ database.value_id r <> valueId
                    /\ database.implied_value_id r <> valueId)
  /\ database.withImplication after (database.implication tx) = tx
  /\ databaseDeletes.DeleteImplicationsByValueId after valueId = (after, None).
Proof.
  intros Hio. cbv zeta. rewrite (DeleteImplicationsByValueId_runs tx valueId Hio).
  cbn [fst snd].
  split; [reflexivity|]. split; [|split].
  - intros r. cbn [database.implication database.withImplication].
    rewrite filter_In. unfold databaseDeletes.mentionsValue.
    rewrite negb_true_iff, orb_false_iff, !N.eqb_neq. tauto.
  - rewrite withImplication_twice. apply withImplication_same.
  - rewrite DeleteImplicationsByValueId_runs by exact Hio.
    rewrite withImplication_twice. cbn [database.implication database.withImplication].
    now rewrite filter_twice.
Qed.

Lemma delete_by_value_witness :
  database.implication
    (fst (databaseDeletes.DeleteImplicationsByValueId Example.animalsTx 0))
  = []
  /\ snd (databaseDeletes.DeleteImplicationsByValueId Example.animalsTx 0) = None.
Proof.
  split; [reflexivity|].
  apply (delete_by_value Example.animalsTx 0). reflexivity.
Defined.

(** ** Reading implications back *)

(** X14: the read loop appends one implication per row, in the order of the
    rows, behind the implications it is given; a NULL value is read as the
    zero value. *)
Theorem readImplications_appends (rows : list database.Joined) :
  forall implications,
    database.readImplications rows implications
    = implications ++ map database.readImplication rows.
Proof.
  induction rows as [|row rows IH]; intros implications; cbn [database.readImplications map].
  - now rewrite app_nil_r.
  - rewrite IH, <- app_assoc. reflexivity.
Qed.

Lemma insertOrdered_In (r x : database.Joined) (rows : list database.Joined) :
  In x (database.insertOrdered r rows) <-> x = r \/ In x rows.
Proof.
  induction rows as [|y rows IH]; cbn [database.insertOrdered].
  - simpl. intuition.
  - destruct (database.orderBy r y); simpl in *; intuition.
Qed.

Lemma ordered_In (x : database.Joined) (rows : list database.Joined) :
  In x (fold_right database.insertOrdered [] rows) <-> In x rows.
Proof.
  induction rows as [|y rows IH]; simpl; [tauto|].
  rewrite insertOrdered_In, IH. intuition.
Qed.

Lemma select_In (tx : database.Tx) (where_ : database.Row -> bool) (j : database.Joined) :
  In j (database.select tx where_)
  <-> exists r, In r (database.implication tx) /\ where_ r = true
                /\ In j (database.joinRow tx r).
Proof.
  unfold database.select. rewrite ordered_In, in_flat_map.
  split; intros (r & H1 & H2).
  - apply filter_In in H1 as [Hin Hw]. eauto.
  - destruct H2 as [Hw Hj]. exists r. split; [now apply filter_In | assumption].
Qed.

Lemma findTag_id (tx : database.Tx) (id : N) (t : Tag.t) :
  database.findTag tx id = Some t -> Tag.Id t = id.
Proof.
  unfold database.findTag. intros H. apply find_some in H as [_ H]. now apply N.eqb_eq.
Qed.

Lemma joinRow_In (tx : database.Tx) (r : database.Row) (j : database.Joined) :
  In j (database.joinRow tx r)
  <-> exists t it,
      database.findTag tx (database.tag_id r) = Some t
      /\ database.findTag tx (database.implied_tag_id r) = Some it
      /\ j = database.mkJoined t (database.findValue tx (database.value_id r))
                               it (database.findValue tx (database.implied_value_id r)).
Proof.
  unfold database.joinRow.
  destruct (database.findTag tx (database.tag_id r)) as [t|];
    destruct (database.findTag tx (database.implied_tag_id r)) as [it|]; simpl.
  - split.
    + intros [<-|[]]. eauto.
    + intros (t' & it' & [= <-] & [= <-] & ->). now left.
  - split; [tauto | intros (? & ? & _ & H & _); discriminate].
  - split; [tauto | intros (? & ? & H & _); discriminate].
  - split; [tauto | intros (? & ? & H & _); discriminate].
Qed.

Lemma Implications_runs (tx : database.Tx) :
  database.ioError tx database.sqlImplications = None ->
  database.Implications tx
  = (map database.readImplication (database.select tx (fun _ => true)), None).
Proof.
  intros Hio. unfold database.Implications, database.Query.
  rewrite Hio, prepare_select. now rewrite readImplications_appends.
Qed.

(** The implications [Implications] reads: one for every row whose two tags
    are in the tag table. *)
Lemma Implications_In (tx : database.Tx) (i : Implication) :
  database.ioError tx database.sqlImplications = None ->
  In i (fst (database.Implications tx))
  <-> exists r t it,
      In r (database.implication tx)
      /\ database.findTag tx (database.tag_id r) = Some t
      /\ database.findTag tx (database.implied_tag_id r) = Some it
      /\ i = mkImplication t (valueRead tx (database.value_id r))
                           it (valueRead tx (database.implied_value_id r)).
Proof.
  intros Hio. rewrite (Implications_runs tx Hio). cbn [fst]. rewrite in_map_iff.
  split.
  - intros (j & <- & Hj). apply select_In in Hj as (r & Hr & _ & Hj).
    apply joinRow_In in Hj as (t & it & Ht & Hit & ->).
    exists r, t, it. repeat split; assumption.
  - intros (r & t & it & Hr & Ht & Hit & ->).
    exists (database.mkJoined t (database.findValue tx (database.value_id r))
                              it (database.findValue tx (database.implied_value_id r))).
    split; [reflexivity|]. apply select_In. exists r. repeat split; [assumption|].
    apply joinRow_In. eauto.
Qed.

Lemma Implications_failed (tx : database.Tx) :
  database.ioError tx database.sqlImplications <> None ->
  fst (database.Implications tx) = [].
Proof.
  intros Hio. unfold database.Implications, database.Query.
  destruct (database.ioError tx database.sqlImplications); [reflexivity | congruence].
Qed.

(** X15: an implication added between two pairs whose tags are in the tag
    table is among the implications read back, with the tags of the table
    and with the values of the table (the zero value where the table has
    none), and the call returns nil. *)
Theorem added_is_listed (tx : database.Tx) (p q : TagValuePair) (t it : Tag.t) :
  database.ioError tx database.sqlAddImplication = None ->
  database.ioError tx database.sqlImplications = None ->
  database.findTag tx (TagId p) = Some t ->
  database.findTag tx (TagId q) = Some it ->
  snd (database.AddImplication tx p q) = None
  /\ In (mkImplication t (valueRead tx (ValueId p)) it (valueRead tx (ValueId q)))
        (fst (database.Implications (fst (database.AddImplication tx p q))))
  /\ Tag.Id t = TagId p /\ Tag.Id it = TagId q.
Proof.
  intros Hadd Hsel Ht Hit. rewrite (AddImplication_runs tx p q Hadd). cbn [fst snd].
  split; [reflexivity|]. split; [|split; eapply findTag_id; eassumption].
  apply Implications_In; [exact Hsel|].
  exists (rowOf p q), t, it. repeat split; try assumption.
  cbn [database.implication database.withImplication]. unfold database.insertOrIgnore.
  destruct (existsb (database.rowEqb (rowOf p q)) (database.implication tx)) eqn:Hex.
  - apply existsb_exists in Hex as (r & Hr & Heq). apply rowEqb_eq in Heq. now subst r.
  - apply in_app_iff. right. now left.
Qed.

Lemma added_is_listed_witness :
  In (Example.valueless Example.cat Example.dog)
     (fst (database.Implications
             (fst (database.AddImplication Example.animalsTx Example.catPair Example.dogPair)))).
Proof.
  apply (added_is_listed Example.animalsTx Example.catPair Example.dogPair
                         (t := Example.cat) (it := Example.dog)); reflexivity.
Defined.

(** X16: after DeleteImplicationsByTagId, run by the store, no implication
    that is read back has the tag on its implying or on its implied side. *)
Theorem deleted_tag_is_not_listed (tx : database.Tx) (tagId : N) (i : Implication) :
  database.ioError tx databaseDeletes.sqlDeleteImplicationsByTagId = None ->
  In i (fst (database.Implications
               (fst (databaseDeletes.DeleteImplicationsByTagId tx tagId)))) ->
  Tag.Id (ImplyingTag i) <> tagId /\ Tag.Id (ImpliedTag i) <> tagId.
Proof.
  intros Hio. rewrite (DeleteImplicationsByTagId_runs tx tagId Hio). cbn [fst].
  set (after := database.withImplication tx _).
  destruct (database.ioError after database.sqlImplications) eqn:Hsel.
  - rewrite Implications_failed by congruence. intros [].
  - intros Hin. apply (Implications_In after i Hsel) in Hin
      as (r & t & it & Hr & Ht & Hit & ->).
    unfold after in Hr. cbn [database.implication database.withImplication] in Hr.
    apply filter_In in Hr as [_ Hr]. unfold databaseDeletes.mentionsTag in Hr.
    rewrite negb_true_iff, orb_false_iff, !N.eqb_neq in Hr.
    apply findTag_id in Ht, Hit. cbn [ImplyingTag ImpliedTag]. rewrite Ht, Hit. exact Hr.
Qed.

Lemma deleted_tag_is_not_listed_witness :
  In (Example.valueless Example.cat Example.animal)
     (fst (database.Implications
             (fst (databaseDeletes.DeleteImplicationsByTagId Example.animalsTx 1))))
  /\ Tag.Id (ImplyingTag (Example.valueless Example.cat Example.animal)) <> 1%N.
Proof.
  assert (Hin : In (Example.valueless Example.cat Example.animal)
                   (fst (database.Implications
                           (fst (databaseDeletes.DeleteImplicationsByTagId
                                   Example.animalsTx 1)))))
    by (vm_compute; auto).
  split; [exact Hin|].
  apply (deleted_tag_is_not_listed Example.animalsTx 1 _ eq_refl Hin).
Defined.

Lemma parametersOf_length (tagValuePairs : list TagValuePair) :
  List.length (parametersOf tagValuePairs) = 2 * List.length tagValuePairs.
Proof.
  induction tagValuePairs as [|p rest IH]; [reflexivity|].
  unfold parametersOf in *. cbn [flat_map app List.length]. rewrite IH. lia.
Qed.

Lemma pairsOf_parametersOf (tagValuePairs : list TagValuePair) :
  database.pairsOf (parametersOf tagValuePairs)
  = map (fun p => (TagId p, ValueId p)) tagValuePairs.
Proof.
  induction tagValuePairs as [|p rest IH]; [reflexivity|].
  unfold parametersOf in *. cbn [flat_map app database.pairsOf map]. now rewrite IH.
Qed.

Lemma implicationsForQuery_text (pair : TagValuePair) (rest : list TagValuePair) :
  database.implicationsForQuery (pair :: rest)
  = ((database.sqlImplicationsForSelect ++ disjunction (pair :: rest)
      ++ database.sqlOrderBy)%string,
     parametersOf (pair :: rest)).
Proof.
  unfold database.implicationsForQuery. rewrite whereLoop_writes.
  cbn [Nat.ltb Nat.leb app]. now rewrite append_assoc.
Qed.

Lemma prepare_for (pair : TagValuePair) (rest : list TagValuePair) :
  database.prepare (database.sqlImplicationsForSelect ++ disjunction (pair :: rest)
                    ++ database.sqlOrderBy)%string
  = Some (database.SelectImplicationsFor (List.length (pair :: rest))).
Proof.
  set (condition := (disjunction (pair :: rest) ++ database.sqlOrderBy)%string).
  unfold database.prepare.
  assert (H1 : String.eqb (database.sqlImplicationsForSelect ++ condition)
                          database.sqlImplications = false)
    by (generalize condition; intros c; vm_compute; reflexivity).
  assert (H2 : String.eqb (database.sqlImplicationsForSelect ++ condition)
                          database.sqlAddImplication = false)
    by (generalize condition; intros c; vm_compute; reflexivity).
  assert (H3 : String.eqb (database.sqlImplicationsForSelect ++ condition)
                          database.sqlDeleteImplication = false)
    by (generalize condition; intros c; vm_compute; reflexivity).
  rewrite H1, H2, H3, stripPrefix_append.
  unfold condition. rewrite parseCondition_disjunction.
  - now rewrite String.eqb_refl.
  - rewrite length_append. pose proof (disjunction_length (pair :: rest)). lia.
  - vm_compute. reflexivity.
Qed.

(** X17: on a non-empty input, run by the store, ImplicationsFor returns a
    nil error and exactly the implications of the rows whose (tag_id,
    value_id) is one of the pairs and whose two tags are in the tag table;
    each of them is among the implications Implications returns. *)
Theorem implicationsFor_selects (tx : database.Tx) (pair : TagValuePair)
        (rest : list TagValuePair) :
  database.ioError tx (fst (database.implicationsForQuery (pair :: rest))) = None ->
  database.ioError tx database.sqlImplications = None ->
  snd (database.ImplicationsFor tx (pair :: rest)) = None
  /\ (forall i,
         In i (fst (database.ImplicationsFor tx (pair :: rest)))
         <-> exists r t it,
             In r (database.implication tx)
             /\ (exists p, In p (pair :: rest)
                           /\ database.tag_id r = TagId p /\ database.value_id r = ValueId p)
             /\ database.findTag tx (database.tag_id r) = Some t
             /\ database.findTag tx (database.implied_tag_id r) = Some it
             /\ i = mkImplication t (valueRead tx (database.value_id r))
                                  it (valueRead tx (database.implied_value_id r)))
  /\ incl (fst (database.ImplicationsFor tx (pair :: rest)))
          (fst (database.Implications tx)).
Proof.
  intros Hfor Hall.
  assert (Hrun : database.ImplicationsFor tx (pair :: rest)
                 = (map database.readImplication
                        (database.select tx (fun r =>
                           existsb (fun p => N.eqb (database.tag_id r) (fst p)
                                             && N.eqb (database.value_id r) (snd p))
                                   (map (fun p => (TagId p, ValueId p)) (pair :: rest)))),
                    None)).
  { unfold database.ImplicationsFor. rewrite implicationsForQuery_text in *.
    cbn [fst] in Hfor. unfold database.Query. rewrite Hfor, prepare_for.
    rewrite parametersOf_length, Nat.eqb_refl, pairsOf_parametersOf.
    now rewrite readImplications_appends. }
  assert (Hchar : forall i,
             In i (fst (database.ImplicationsFor tx (pair :: rest)))
             <-> exists r t it,
                 In r (database.implication tx)
                 /\ (exists p, In p (pair :: rest)
                               /\ database.tag_id r = TagId p
                               /\ database.value_id r = ValueId p)
                 /\ database.findTag tx (database.tag_id r) = Some t
                 /\ database.findTag tx (database.implied_tag_id r) = Some it
                 /\ i = mkImplication t (valueRead tx (database.value_id r))
                                      it (valueRead tx (database.implied_value_id r))).
  { intros i. rewrite Hrun. cbn [fst]. rewrite in_map_iff. split.
    - intros (j & <- & Hj). apply select_In in Hj as (r & Hr & Hw & Hj).
      apply joinRow_In in Hj as (t & it & Ht & Hit & ->).
      apply existsb_exists in Hw as (xy & Hxy & Heq).
      apply in_map_iff in Hxy as (p & <- & Hp).
      apply andb_true_iff in Heq as [H1 H2]. apply N.eqb_eq in H1, H2. cbn [fst snd] in *.
      exists r, t, it. repeat split; eauto.
    - intros (r & t & it & Hr & (p & Hp & H1 & H2) & Ht & Hit & ->).
      exists (database.mkJoined t (database.findValue tx (database.value_id r))
                                it (database.findValue tx (database.implied_value_id r))).
      split; [reflexivity|]. apply select_In. exists r.
      split; [assumption|]. split.
      + apply existsb_exists. exists (TagId p, ValueId p).
        split; [apply in_map_iff; exists p; split; [reflexivity | assumption]|].
        cbn [fst snd]. now rewrite H1, H2, !N.eqb_refl.
      + apply joinRow_In. eauto. }
  split; [now rewrite Hrun|]. split; [exact Hchar|].
  intros i Hi. apply Hchar in Hi as (r & t & it & Hr & _ & Ht & Hit & ->).
  apply Implications_In; [exact Hall|]. exists r, t, it. auto.
Qed.

Lemma implicationsFor_selects_witness :
  fst (database.ImplicationsFor Example.animalsTx [Example.catPair; Example.animalPair])
  = [Example.valueless Example.cat Example.animal]
  /\ incl (fst (database.ImplicationsFor Example.animalsTx
                                         [Example.catPair; Example.animalPair]))
          (fst (database.Implications Example.animalsTx)).
Proof.
  split; [vm_compute; reflexivity|].
  apply (implicationsFor_selects Example.animalsTx Example.catPair [Example.animalPair]);
    reflexivity.
Defined.

(** ** Files and paths *)

Lemma Clean_rooted (path : string) : isRooted path = true -> isRooted (Clean path) = true.
Proof.
  intros Hrooted. unfold Clean. rewrite Hrooted. cbn [String.eqb isRooted].
  apply Ascii.eqb_refl.
Qed.

Lemma Join_rooted (root directory : string) :
  isRooted root = true -> directory <> "" ->
  isRooted (Join [root; directory]) = true.
Proof.
  intros Hroot Hdir. unfold Join. cbn [filter].
  destruct root as [|c root]; [discriminate|].
  destruct directory as [|d directory]; [congruence|].
  cbn [String.eqb negb]. apply Clean_rooted. exact Hroot.
Qed.

Lemma absPath_settled (st : storage.Storage) (file : File.t) :
  isRooted (storage.RootPath st) = true ->
  exists file',
    storage.absPath st (Some file) = Some file'
    /\ (File.Directory file' = "" \/ isRooted (File.Directory file') = true)
    /\ storage.absPath st (Some file') = Some file'
    /\ storage.withDirectory file' (File.Directory file) = file.
Proof.
  intros Hroot. unfold storage.absPath.
  destruct file as [id directory name fingerprint modTime size isDir]. cbn [File.Directory].
  destruct directory as [|c directory].
  - eexists. split; [reflexivity|]. cbn [File.Directory]. auto.
  - destruct (Ascii.eqb c Separator) eqn:Hc.
    + eexists. split; [reflexivity|]. cbn [File.Directory isRooted]. rewrite Hc. auto.
    + eexists. split; [reflexivity|].
      assert (Hjoin : isRooted (Join [storage.RootPath st; String c directory]) = true)
        by (apply Join_rooted; [assumption | discriminate]).
      unfold storage.withDirectory. cbn [File.Directory File.Id File.Name File.Fingerprint
                                         File.ModTime File.Size File.IsDir].
      destruct (Join [storage.RootPath st; String c directory]) as [|j joined];
        [discriminate|].
      cbn [isRooted] in Hjoin. rewrite Hjoin. auto.
Qed.

(** X18: under a root that begins with a separator, absPaths gives every
    file a directory that is empty or begins with a separator and changes
    nothing else of it; nil pointers and the number and order of the files
    stay, and applying it again changes nothing. *)
Theorem absPaths_settles (st : storage.Storage) (files : Files) :
  isRooted (storage.RootPath st) = true ->
  List.length (storage.absPaths st files) = List.length files
  /\ storage.absPaths st (storage.absPaths st files) = storage.absPaths st files
  /\ (forall k file,
         nth_error files k = Some (Some file) ->
         exists file',
           nth_error (storage.absPaths st files) k = Some (Some file')
           /\ (File.Directory file' = "" \/ isRooted (File.Directory file') = true)
           /\ storage.withDirectory file' (File.Directory file) = file)
  /\ (forall k, nth_error files k = Some None ->
                nth_error (storage.absPaths st files) k = Some None).
Proof.
  intros Hroot. unfold storage.absPaths. split; [apply length_map|]. split; [|split].
  - rewrite map_map. apply map_ext. intros [file|]; [|reflexivity].
    destruct (absPath_settled st file Hroot) as (file' & -> & _ & Hagain & _). exact Hagain.
  - intros k file Hk. rewrite nth_error_map, Hk. cbn [option_map].
    destruct (absPath_settled st file Hroot) as (file' & -> & Hdir & _ & Hrest). eauto.
  - intros k Hk. now rewrite nth_error_map, Hk.
Qed.

Lemma absPaths_settles_witness :
  storage.absPaths Example.root (map Some (database.file Example2.filesTx))
  = [Some (File.mk 1 "/root/pics" "a.jpg" "f1" 0 10 false);
     Some (File.mk 2 "/root/docs" "b.txt" "f2" 0 20 false);
     Some (File.mk 3 "/mnt/pics" "c.jpg" "f3" 0 30 false)]
  /\ storage.absPaths Example.root
       (storage.absPaths Example.root (map Some (database.file Example2.filesTx)))
     = storage.absPaths Example.root (map Some (database.file Example2.filesTx)).
Proof.
  split; [vm_compute; reflexivity|].
  apply (absPaths_settles Example.root (map Some (database.file Example2.filesTx))).
  reflexivity.
Defined.

Section ByDirectoryProperties.

Variable database_FilesByDirectory : database.Tx -> string -> Files * option Error.

Lemma filesByDirectoriesLoop_succeeds (st : storage.Storage) (tx : database.Tx)
      (paths : list string) :
  forall files,
    (forall path, In path paths ->
                  snd (database_FilesByDirectory tx (storage.relPath st path)) = None) ->
    storageFiles.filesByDirectoriesLoop database_FilesByDirectory st tx paths files
    = (files ++ flat_map (fun path =>
                            fst (database_FilesByDirectory tx (storage.relPath st path)))
                         paths,
       None).
Proof.
  induction paths as [|path rest IH]; intros files Hall;
    cbn [storageFiles.filesByDirectoriesLoop flat_map].
  - now rewrite app_nil_r.
  - pose proof (Hall path (or_introl eq_refl)) as Hpath.
    destruct (database_FilesByDirectory tx (storage.relPath st path)) as [pathFiles err].
    cbn [fst snd] in *. subst err.
    rewrite IH by (intros p Hp; apply Hall; now right).
    now rewrite <- app_assoc.
Qed.

Lemma filesByDirectoriesLoop_fails (st : storage.Storage) (tx : database.Tx)
      (before after : list string) (bad : string) (err : Error) :
  forall files,
    (forall path, In path before ->
                  snd (database_FilesByDirectory tx (storage.relPath st path)) = None) ->
    snd (database_FilesByDirectory tx (storage.relPath st bad)) = Some err ->
    storageFiles.filesByDirectoriesLoop database_FilesByDirectory st tx
                                        (before ++ bad :: after) files
    = ([], Some (storageFiles.couldNotRetrieveFiles bad err)).
Proof.
  induction before as [|path rest IH]; intros files Hall Hbad;
    cbn [storageFiles.filesByDirectoriesLoop app].
  - destruct (database_FilesByDirectory tx (storage.relPath st bad)) as [pathFiles e].
    cbn [snd] in Hbad. now subst e.
  - pose proof (Hall path (or_introl eq_refl)) as Hpath.
    destruct (database_FilesByDirectory tx (storage.relPath st path)) as [pathFiles e].
    cbn [snd] in Hpath. subst e.
    apply IH; [|assumption]. intros p Hp. apply Hall. now right.
Qed.

End ByDirectoryProperties.

(** X19: when the store answers for every directory, FilesByDirectories
    returns a nil error and the files of the directories in the order of the
    paths, each directory's files as FilesByDirectory returns them. *)
Theorem filesByDirectories_concatenates
        (database_FilesByDirectory : database.Tx -> string -> Files * option Error)
        (st : storage.Storage) (tx : database.Tx) (paths : list string) :
  (forall path, In path paths ->
                snd (database_FilesByDirectory tx (storage.relPath st path)) = None) ->
  storageFiles.FilesByDirectories database_FilesByDirectory st tx paths
  = (flat_map (fun path =>
                 fst (storageFiles.FilesByDirectory database_FilesByDirectory st tx path))
              paths,
     None).
Proof.
  intros Hall. unfold storageFiles.FilesByDirectories.
  rewrite filesByDirectoriesLoop_succeeds by exact Hall. cbn [app]. f_equal.
  unfold storage.absPaths, storageFiles.FilesByDirectory.
  clear Hall. induction paths as [|path rest IH]; cbn [flat_map map]; [reflexivity|].
  rewrite map_app, IH. f_equal.
  now destruct (database_FilesByDirectory tx (storage.relPath st path)).
Qed.

Lemma filesByDirectories_concatenates_witness :
  storageFiles.FilesByDirectories Example2.filesByDirectory Example.root Example2.filesTx
                                  ["/root/docs"; "/root/pics"]
  = ([Some (File.mk 2 "/root/docs" "b.txt" "f2" 0 20 false);
      Some (File.mk 1 "/root/pics" "a.jpg" "f1" 0 10 false)], None).
Proof.
  rewrite (filesByDirectories_concatenates Example2.filesByDirectory Example.root
             Example2.filesTx ["/root/docs"; "/root/pics"]).
  - vm_compute. reflexivity.
  - intros path [<-|[<-|[]]]; reflexivity.
Defined.

(** X20: when the store fails for a directory, and answers for the ones
    before it, FilesByDirectories returns no files at all and the error of
    that directory, annotated with its path as given; the directories behind
    it play no part. *)
Theorem filesByDirectories_first_failure
        (database_FilesByDirectory : database.Tx -> string -> Files * option Error)
        (st : storage.Storage) (tx : database.Tx)
        (before after : list string) (bad : string) (err : Error) :
  (forall path, In path before ->
                snd (database_FilesByDirectory tx (storage.relPath st path)) = None) ->
  snd (database_FilesByDirectory tx (storage.relPath st bad)) = Some err ->
  storageFiles.FilesByDirectories database_FilesByDirectory st tx (before ++ bad :: after)
  = ([], Some (Errorf ("'" ++ bad ++ "': could not retrieve files for directory: "
                       ++ storage.errorText err)%string)).
Proof.
  intros Hall Hbad. unfold storageFiles.FilesByDirectories.
  now rewrite filesByDirectoriesLoop_fails with (err := err).
Qed.

Lemma filesByDirectories_first_failure_witness :
  storageFiles.FilesByDirectories Example2.filesByDirectory Example.root Example2.filesTx
                                  ["/root/docs"; "/root/gone"; "/root/pics"]
  = ([], Some (Errorf "'/root/gone': could not retrieve files for directory: disk I/O error")).
Proof.
  apply (@filesByDirectories_first_failure Example2.filesByDirectory Example.root
           Example2.filesTx ["/root/docs"] ["/root/pics"] "/root/gone"
           (StoreError "disk I/O error")).
  - intros path [<-|[]]. reflexivity.
  - reflexivity.
Defined.

(** X21: on a store that reads an empty implication table, a query with
    implications and the explicit-only query return the same for every
    supported expression, path and sort order. *)
Theorem no_implications_no_difference
        (database_QueryFileCount : database.Tx -> Expression -> string -> N * option Error)
        (database_QueryFiles :
           database.Tx -> Expression -> string -> string -> Files * option Error)
        (st : storage.Storage) (tx : database.Tx)
        (expression : Expression) (path sort : string) :
  database.implication tx = [] ->
  database.ioError tx database.sqlImplications = None ->
  firstUnsupported expression = None ->
  storage.QueryFileCount database_QueryFileCount st tx expression path false
  = storage.QueryFileCount database_QueryFileCount st tx expression path true
  /\ storage.QueryFiles database_QueryFiles st tx expression path false sort
     = storage.QueryFiles database_QueryFiles st tx expression path true sort.
Proof.
  intros Hempty Hio Hsupported.
  assert (Hexpand : storage.addImpliedTags tx expression = Returned (expression, None)).
  { unfold storage.addImpliedTags, storage.Implications.
    rewrite (Implications_runs tx Hio). unfold database.select. rewrite Hempty.
    cbn [filter flat_map fold_right map option_map].
    now rewrite expand_over_nothing, Hsupported. }
  unfold storage.QueryFileCount, storage.QueryFiles. cbn [negb].
  now rewrite Hexpand.
Qed.

Lemma no_implications_no_difference_witness :
  storage.QueryFileCount Example.queryFileCount Example.root Example2.filesTx
                         (NotExpression (TagExpression "a.jpg")) "" false
  = Returned (2%N, None).
Proof.
  rewrite (proj1 (no_implications_no_difference
                    Example.queryFileCount Example.queryFiles Example.root Example2.filesTx
                    (NotExpression (TagExpression "a.jpg")) "" ""
                    eq_refl eq_refl eq_refl)).
  vm_compute. reflexivity.
Defined.

Lemma worklist_closed_witness :
  In (Example.valueless Example.dog Example.animal)
     (storage.worklist "animal" "" Example2.pets)
  /\ In (3%N, 0%N)
        (map storage.implyingPair (storage.worklist "animal" "" Example2.pets)).
Proof.
  destruct (worklist_closed Example2.pets "animal" "") as [Hseed Hclosed].
  assert (Hdog : In (Example.valueless Example.dog Example.animal)
                    (storage.worklist "animal" "" Example2.pets)).
  { apply Hseed; [simpl; auto | reflexivity]. }
  split; [exact Hdog|].
  apply (Hclosed _ (Example.valueless Example.puppy Example.dog) Hdog);
    [simpl; auto | reflexivity].
Defined.
